(** * openmlpimp/plot/kde.py: plotting of hyperparameter priors

    A shallow embedding of the script [src/openmlpimp/plot/kde.py] and the
    properties of its four parts: the archived-sample parser
    [obtain_sampled_parameters], the two plotters [plot_categorical] and
    [plot_numeric], and the per-parameter loop of the script's entry point.

    Python exceptions are values of [result]; dictionaries that are only
    looked up are [gmap]s, dictionaries whose iteration order matters
    ([OrderedDict], the insertion-ordered [dict]) are association lists;
    calls into matplotlib are recorded as a list of commands; numbers are
    binary64 floats, and [==] on the values of a prior is an operation of
    its own. *)

From Stdlib Require Import ZArith QArith Floats.
From stdpp Require Import gmap strings list.

Close Scope Q_scope.
Open Scope string_scope.
Open Scope list_scope.

(** ** Python preliminaries *)

Inductive exn : Type :=
  | IndexError
  | KeyError (key : string)
  | ValueError
  | OSError (path : string).

Inductive result (A : Type) : Type :=
  | Ok (a : A)
  | Raise (e : exn).
Arguments Ok {A} a.
Arguments Raise {A} e.

Definition bind {A B : Type} (m : result A) (k : A -> result B) : result B :=
  match m with
  | Ok a => k a
  | Raise e => Raise e
  end.

Notation "'let*' x ':=' m 'in' k" := (bind m (fun x => k))
  (at level 10, x pattern, m at level 100, k at level 200).

(** [l[i]] for a non-negative index. *)
Definition py_index {A : Type} (l : list A) (i : nat) : result A :=
  match l !! i with
  | Some x => Ok x
  | None => Raise IndexError
  end.

(** [[f(x) for x in l]], stopping at the first exception. *)
Fixpoint for_each {A B : Type} (f : A -> result B) (l : list A) : result (list B) :=
  match l with
  | [] => Ok []
  | x :: l' => let* y := f x in let* ys := for_each f l' in Ok (y :: ys)
  end.

(** [str.startswith]. *)
Definition startswith (s p : string) : bool := String.prefix p s.

(** [str.split(sep)] for a non-empty separator: the string is scanned from
    the left; at every position that is not inside a separator already
    matched, a match of [sep] closes the current piece. [skip] counts the
    characters of the matched separator that are still to be passed over.
    The head of the result is the piece under construction. *)
Fixpoint split_from (sep : string) (skip : nat) (s : string) : list string :=
  match s with
  | EmptyString => [EmptyString]
  | String c rest =>
      match skip with
      | S k => split_from sep k rest
      | O =>
          if String.prefix sep s
          then EmptyString :: split_from sep (String.length sep - 1) rest
          else match split_from sep 0 rest with
               | piece :: pieces => String c piece :: pieces
               | [] => [String c EmptyString]
               end
      end
  end.

Definition split (s sep : string) : list string := split_from sep 0 s.

(** [l[-1]] on the (never empty) result of [split]. *)
Definition last_piece (l : list string) : string := List.last l EmptyString.

(** [sep] occurs in [s]. *)
Definition occurs (sep s : string) : Prop :=
  exists p q, s = p +:+ sep +:+ q.

(** [sep in s]. *)
Fixpoint contains (sep s : string) : bool :=
  String.prefix sep s ||
  match s with
  | EmptyString => false
  | String _ s' => contains sep s'
  end.

(** [sep.join(l)], and the string without its first [n] characters. *)
Fixpoint join (sep : string) (l : list string) : string :=
  match l with
  | [] => ""
  | [x] => x
  | x :: l' => x +:+ sep +:+ join sep l'
  end.

Fixpoint string_drop (n : nat) (s : string) : string :=
  match n, s with
  | O, _ => s
  | S n', String _ s' => string_drop n' s'
  | S _, EmptyString => EmptyString
  end.

(** [collections.defaultdict(list)]: reading a missing key stores and
    returns the empty list. *)
Definition defaultdict_getitem {A : Type} (d : gmap string (list A)) (k : string)
  : list A * gmap string (list A) :=
  match d !! k with
  | Some l => (l, d)
  | None => ([], <[k := []]> d)
  end.

(** [d[k].extend(l)] on a [defaultdict(list)]. *)
Definition defaultdict_extend {A : Type} (d : gmap string (list A)) (k : string)
    (l : list A) : gmap string (list A) :=
  let '(old, d') := defaultdict_getitem d k in <[k := old ++ l]> d'.

(** ** The archived-sample parser *)

Section Parser.
Context {V : Type}.

(** What [arff.load] returns: [attributes] is a list of (name, type)
    pairs and [data] a list of rows. *)
Record arff_file : Type := {
  attributes : list (string * string);
  data : list (list V)
}.

(** The part of the file system the parser touches: [fs_glob] gives the
    paths that match a pattern, in the order [glob.glob] lists them, and
    [arff_load] opens and parses one path. *)
Record filesystem : Type := {
  fs_glob : string -> list string;
  arff_load : string -> result arff_file
}.

(** [attribute_name.split('__')[-1]]. *)
Definition canonical_name (attribute_name : string) : string :=
  last_piece (split attribute_name "__").

(** [[arff_file['data'][x][idx] for x in range(len(arff_file['data']))]]. *)
Definition column (rows : list (list V)) (idx : nat) : result (list V) :=
  for_each (fun row => py_index row idx) rows.

(** The loop over [enumerate(arff_file['attributes'])], from index [idx]. *)
Fixpoint scan_attributes (rows : list (list V)) (idx : nat)
    (attrs : list (string * string)) (values : gmap string (list V))
  : result (gmap string (list V)) :=
  match attrs with
  | [] => Ok values
  | attribute :: attrs' =>
      let attribute_name := fst attribute in
      if startswith attribute_name "parameter_"
      then
        let* col := column rows idx in
        scan_attributes rows (S idx) attrs'
          (defaultdict_extend values (canonical_name attribute_name) col)
      else scan_attributes rows (S idx) attrs' values
  end.

(** The loop over [files]. *)
Fixpoint scan_files (fs : filesystem) (files : list string)
    (values : gmap string (list V)) : result (gmap string (list V)) :=
  match files with
  | [] => Ok values
  | file :: files' =>
      let* af := arff_load fs file in
      let* values' := scan_attributes (data af) 0 (attributes af) values in
      scan_files fs files' values'
  end.

Definition obtain_sampled_parameters (fs : filesystem) (directory : string)
  : result (gmap string (list V)) :=
  let files := fs_glob fs (directory +:+ "/*/*.arff") in
  scan_files fs files ∅.

(** The values one file contributes to key [k]: for each attribute, in
    order, that is a parameter column with canonical name [k], the cells
    of that column from the first row to the last. *)
Fixpoint attribute_cells (rows : list (list V)) (idx : nat)
    (attrs : list (string * string)) (k : string) : list V :=
  match attrs with
  | [] => []
  | attribute :: attrs' =>
      (if startswith (fst attribute) "parameter_" &&
          bool_decide (canonical_name (fst attribute) = k)
       then rows ≫= (fun row => option_list (row !! idx))
       else [])
      ++ attribute_cells rows (S idx) attrs' k
  end.

Definition file_cells (af : arff_file) (k : string) : list V :=
  attribute_cells (data af) 0 (attributes af) k.

(** Every row of the table has a cell for every attribute. *)
Definition rectangular (af : arff_file) : Prop :=
  Forall (fun row => length row = length (attributes af)) (data af).

(** The files the parser scans. *)
Definition scanned (fs : filesystem) (directory : string) : result (list arff_file) :=
  for_each (arff_load fs) (fs_glob fs (directory +:+ "/*/*.arff")).

(** The table has a parameter column whose canonical name is [k]. *)
Definition has_column (k : string) (af : arff_file) : Prop :=
  exists aname ty, (aname, ty) ∈ attributes af /\
    startswith aname "parameter_" = true /\ canonical_name aname = k.
End Parser.

Arguments arff_file V : clear implicits.
Arguments filesystem V : clear implicits.

(** ** Dictionaries that keep insertion order *)

Section OrderedDict.
Context {K A : Type} `{EqDecision K}.

(** [k in d]. *)
Definition odict_contains (d : list (K * A)) (k : K) : bool :=
  bool_decide (k ∈ d.*1).

(** [d[k]] read, for a plain [dict] or [OrderedDict]. *)
Fixpoint odict_get (d : list (K * A)) (k : K) : option A :=
  match d with
  | [] => None
  | (k', v) :: d' => if decide (k' = k) then Some v else odict_get d' k
  end.

(** [d[k] = v]: an existing key keeps its place, a new key goes last. *)
Fixpoint odict_set (d : list (K * A)) (k : K) (v : A) : list (K * A) :=
  match d with
  | [] => [(k, v)]
  | (k', v') :: d' =>
      if decide (k' = k) then (k, v) :: d' else (k', v') :: odict_set d' k v
  end.

(** [list(d.values())]. *)
Definition odict_values (d : list (K * A)) : list A := d.*2.

(** A dictionary given by its keys [L] and a function of the key. *)
Definition tabulate (g : K -> A) (L : list K) : list (K * A) :=
  map (fun k => (k, g k)) L.
End OrderedDict.

(** ** Drawing commands

    What the plotters ask of [os] and matplotlib, in the order of the
    calls. [ax] is the index of the subplot in [axes] (0 for the single
    subplot of [plt.subplots()]); [Subplots rows sharex] is
    [plt.subplots()] or [plt.subplots(rows, ..., sharex=sharex)]; [Points]
    is a [plot] of data handed over as they are, of type [R]. Keywords
    of style (line width, opacity, figure size, bounding box) are left
    out. *)

Inductive command (R N : Type) : Type :=
  | Makedirs (path : string)
  | Subplots (rows : nat) (sharex : bool)
  | Hist (ax : nat) (draws : list nat) (range_lo range_hi : nat)
  | Plot (ax : nat) (xs ys : list N) (fmt : string) (label : option string)
  | Points (ax : nat) (xs : R) (ys : list N) (fmt : string)
  | Step (ax : nat) (xs ys : list N) (color : string) (label : string)
  | Legend (ax : nat) (loc : string)
  | SetXlim (ax : nat) (lo hi : N)
  | Xscale (scale : string)
  | Savefig (path : string)
  | Close.
Arguments Makedirs {R N} path.
Arguments Subplots {R N} rows sharex.
Arguments Hist {R N} ax draws range_lo range_hi.
Arguments Plot {R N} ax xs ys fmt label.
Arguments Points {R N} ax xs ys fmt.
Arguments Step {R N} ax xs ys color label.
Arguments Legend {R N} ax loc.
Arguments SetXlim {R N} ax lo hi.
Arguments Xscale {R N} scale.
Arguments Savefig {R N} path.
Arguments Close {R N}.

(** ** The categorical plotter *)

Section Categorical.
(** [K] is the type of the category tokens. The arithmetic of the
    frequencies is a parameter: [zero] is the initial count, [add] is
    [+=] and [recip n] is [1.0 / n]. *)
Context {K : Type} `{EqDecision K} {R num : Type}.
Variables (zero : num) (add : num -> num -> num) (recip : nat -> num).

(** One turn of the loop over [X], for a sequence of length [n]:
    [if value not in X_prime: X_prime[value] = 0] and then
    [X_prime[value] += 1.0 / len(X)]. *)
Definition count_value (n : nat) (X_prime : list (K * num)) (value : K)
  : list (K * num) :=
  let X_prime1 :=
    if odict_contains X_prime value then X_prime
    else odict_set X_prime value zero in
  match odict_get X_prime1 value with
  | Some v => odict_set X_prime1 value (add v (recip n))
  | None => X_prime1
  end.

(** [X_prime] when the loop is over. *)
Definition frequency_map (X : list K) : list (K * num) :=
  fold_left (count_value (length X)) X [].

(** [rvs xk pk n] stands for [rv_discrete(values=(xk, pk)).rvs(size=n)],
    which raises when scipy does not accept the values (an empty support,
    for one). *)
Definition plot_categorical (rvs : list nat -> list num -> nat -> result (list nat))
    (X : list K) (output_dir parameter_name : string)
  : result (list (command R num)) :=
  let X_prime := frequency_map X in
  let xk := seq 0 (length X_prime) in
  let pk := odict_values X_prime in
  let* draws := rvs xk pk 100 in
  Ok [ Makedirs output_dir;
       Subplots 1 false;
       Hist 0 draws 0 (length X_prime);
       Legend 0 "upper left";
       Savefig (output_dir +:+ parameter_name +:+ ".png");
       Close ].

(** [add] applied [n] times, as [+=] does over [n] occurrences. *)
Fixpoint accumulate (n : nat) (acc x : num) : num :=
  match n with
  | O => acc
  | S n' => accumulate n' (add acc x) x
  end.
End Categorical.

(** The first occurrences of the values of a sequence, in order. *)
Fixpoint first_seen {K : Type} `{EqDecision K} (X : list K) : list K :=
  match X with
  | [] => []
  | x :: X' => x :: filter (fun y => y ≠ x) (first_seen X')
  end.

(** The number of occurrences of a value. *)
Definition occurrences {K : Type} `{EqDecision K} (k : K) (X : list K) : nat :=
  length (filter (fun y => y = k) X).

(** The arithmetic of the code: binary64 floats, [1.0 / len(X)] with the
    length converted to a float. *)
Definition float_of_nat (n : nat) : float :=
  PrimFloat.of_uint63 (Uint63.of_Z (Z.of_nat n)).

Definition float_recip (n : nat) : float :=
  PrimFloat.div PrimFloat.one (float_of_nat n).

Definition float_frequency_map {K : Type} `{EqDecision K} (X : list K)
  : list (K * float) :=
  frequency_map PrimFloat.zero PrimFloat.add float_recip X.

(** The same loop in exact rational arithmetic, to compare with. *)
Definition exact_recip (n : nat) : Q := (1 / inject_Z (Z.of_nat n))%Q.

Definition exact_frequency_map {K : Type} `{EqDecision K} (X : list K)
  : list (K * Q) :=
  frequency_map 0%Q Qplus exact_recip X.

Definition Qsum (l : list Q) : Q := foldr Qplus 0%Q l.

(** ** Binary64 numbers *)

(** A bound of a hyperparameter is a Python [int] or a Python [float]
    (an [int] that binary64 rounds to a finite value: on a larger one
    [np.power] already raises). *)
Inductive py_number : Type :=
  | PyInt (z : Z)
  | PyFloat (f : float).

(** The binary64 value nearest to an integer (ties to even), as Python
    and numpy convert an [int] that binary64 can hold. *)
Definition float_of_Z (z : Z) : float :=
  SF2Prim (binary_normalize prec emax z 0%Z false).

(** A bound as numpy takes it in a comparison with a [float64] and as
    Python takes it in a product with a [float]. *)
Definition np_float64 (x : py_number) : float :=
  match x with
  | PyInt z => float_of_Z z
  | PyFloat f => f
  end.

(** The rational number a finite binary64 value stands for. *)
Definition float_value (f : float) : option Q :=
  match Prim2SF f with
  | S754_zero _ => Some 0%Q
  | S754_finite s m e =>
      let m' := inject_Z (if s then Zneg m else Zpos m) in
      Some (match e with
            | Z0 => m'
            | Zpos p => m' * inject_Z (2 ^ Zpos p)
            | Zneg p => m' / inject_Z (2 ^ Zpos p)
            end)%Q
  | _ => None
  end.

(** A binary64 value that is a number: neither an infinity nor NaN. *)
Definition finite_float (f : float) : bool :=
  match Prim2SF f with
  | S754_zero _ | S754_finite _ _ _ => true
  | _ => false
  end.

(** [np.linspace(start, stop, num)] with its default [endpoint=True], as
    numpy computes it: [arange(0, num)] times the step, or divided by
    [num - 1] and times the width when the step is zero, plus [start],
    and the last sample set to [stop]. With one sample or none the step
    is not used. *)
Definition np_linspace (start stop : float) (num : nat) : list float :=
  let div := float_of_nat (num - 1) in
  let delta := PrimFloat.sub stop start in
  let y := map float_of_nat (seq 0 num) in
  let y :=
    if decide (1 < num)%nat then
      let step := PrimFloat.div delta div in
      if PrimFloat.eqb step PrimFloat.zero
      then map (fun v => PrimFloat.mul (PrimFloat.div v div) delta) y
      else map (fun v => PrimFloat.mul v step) y
    else map (fun v => PrimFloat.mul v delta) y in
  let y := map (fun v => PrimFloat.add v start) y in
  if decide (1 < num)%nat then <[(num - 1)%nat := stop]> y else y.

(** [np.arange(1, n + 1) / float(n)]. *)
Definition rank_fractions (n : nat) : list float :=
  map (fun i => PrimFloat.div (float_of_nat i) (float_of_nat n)) (seq 1 n).

(** ** The numeric plotter *)

(** The hyperparameters of ConfigSpace, by the classes the script tests
    for. A numerical hyperparameter has a name, bounds and a log flag. *)
Record numerical : Type := {
  name : string;
  lower : py_number;
  upper : py_number;
  log : bool
}.

Inductive hyperparameter : Type :=
  | NumericalHyperparameter (h : numerical)
  | CategoricalHyperparameter (hname : string) (choices : list string)
  | Constant (hname : string) (value : string).

Section Numeric.
(** [V] is the type of the raw values of a prior or of an archived
    table. A sample sequence reaches the plotter as the list it came in
    or as the float array the script made of it. *)
Context {V : Type}.

Inductive samples : Type :=
  | RawList (l : list V)
  | Float64Array (a : list float).

(** The libraries the plotter calls: [np.power], the conversion of one
    raw value by [np.array], [np.sort] on a one-dimensional array,
    [np.random.random], and the density estimate of
    [openmlpimp.utils.priors] with its [pdf]. *)
Record numeric_library : Type := {
  np_power : py_number -> float -> float;
  float_of_value : V -> result float;
  np_sort : list float -> list float;
  np_random_random : nat -> list float;
  distribution : Type;
  gaussian_kde_wrapper : numerical -> string -> samples -> result distribution;
  pdf : distribution -> list float -> result (list float)
}.

Variable lib : numeric_library.

(** [np.array(l, dtype=np.float64)]. *)
Definition np_array_float64 (l : list V) : result (list float) :=
  for_each (float_of_value lib) l.

(** [np.array(s)] for a sample sequence. *)
Definition np_array (s : samples) : result (list float) :=
  match s with
  | RawList l => np_array_float64 l
  | Float64Array a => Ok a
  end.

(** [len(s)]. *)
Definition samples_length (s : samples) : nat :=
  match s with
  | RawList l => length l
  | Float64Array a => length a
  end.

Definition factor : float := PrimFloat.one.
Definition lines : list string := ["r"; "b"; "g"].

(** [min] and [max] of the plotting range. [max < hyperparameter.upper]
    compares a [float64] with the bound, in binary64. *)
Definition range_min (h : numerical) : float := np_power lib (lower h) factor.

Definition computed_max (h : numerical) : float := np_power lib (upper h) factor.

Definition range_max (h : numerical) : float :=
  let max := computed_max h in
  if PrimFloat.ltb max (np_float64 (upper h))
  then PrimFloat.mul (np_float64 (upper h)) factor
  else max.

Definition X_values_plot (h : numerical) : list float :=
  np_linspace (range_min h) (range_max h) 1000.

(** The body of the loop over [enumerate(data)]: the density curve on
    the top subplot, then the empirical distribution function on the
    bottom one. *)
Definition plot_strategy (h : numerical) (index : nat)
    (strategy : string * samples) : result (list (command samples float)) :=
  let '(sname, values) := strategy in
  let* dist := gaussian_kde_wrapper lib h (name h) values in
  let* density := pdf lib dist (X_values_plot h) in
  let* colour := py_index lines index in
  let curve := Plot 0 (X_values_plot h) density (colour +:+ "-") (Some sname) in
  let* arr := np_array values in
  let sorted := np_sort lib arr in
  let yvals := rank_fractions (length sorted) in
  let* colour' := py_index lines index in
  Ok [curve; Step 1 sorted yvals colour' sname].

Fixpoint plot_strategies (h : numerical) (index : nat)
    (data : list (string * samples)) : result (list (command samples float)) :=
  match data with
  | [] => Ok []
  | strategy :: data' =>
      let* cmds := plot_strategy h index strategy in
      let* cmds' := plot_strategies h (S index) data' in
      Ok (cmds ++ cmds')
  end.

(** [if 'gaussian_kde' in data]: the data under that key, handed to
    [plot] as they are, against the random heights
    [-0.005 - 0.01 * np.random.random(len(...))] under the axis (the two
    constants are written as the binary64 values they denote). *)
Definition plot_data_points (data : list (string * samples))
  : list (command samples float) :=
  match odict_get data "gaussian_kde" with
  | Some values =>
      let jitter := np_random_random lib (samples_length values) in
      [Points 0 values
         (map (fun r => PrimFloat.sub (PrimFloat.opp 0x1.47ae147ae147bp-8)
                          (PrimFloat.mul 0x1.47ae147ae147bp-7 r)) jitter)
         "+k"]
  | None => []
  end.

Definition plot_numeric (h : numerical) (data : list (string * samples))
    (output_dir parameter_name : string) : result (list (command samples float)) :=
  let* curves := plot_strategies h 0 data in
  Ok ([Makedirs output_dir; Subplots 2 true]
      ++ curves ++ plot_data_points data
      ++ [Legend 1 "upper left"; SetXlim 0 (range_min h) (range_max h)]
      ++ (if log h then [Xscale "log"] else [])
      ++ [Savefig (output_dir +:+ parameter_name +:+ ".png"); Close]).
End Numeric.

Arguments samples V : clear implicits.
Arguments numeric_library V : clear implicits.

(** ** The entry point of the script *)

(** A value of a fixed-parameter constraint, as [json.loads] gives it. *)
Inductive json : Type :=
  | JInt (z : Z)
  | JStr (s : string)
  | JBool (b : bool).

(** The parsed command line. [fixed_parameters] is [None] by default. *)
Record arguments : Type := {
  flow_id : Z;
  study_id : string;
  classifier : string;
  fixed_parameters : option (list (string * json));
  bestN : Z;
  cache_directory : string;
  output_directory : string;
  result_directory : string
}.

(** [parse_args] on the empty command line, for a home directory. *)
Definition default_arguments (home : string) : arguments := {|
  flow_id := 6970;
  study_id := "OpenML100";
  classifier := "adaboost";
  fixed_parameters := None;
  bestN := 10;
  cache_directory := home +:+ "/experiments/cache_kde";
  output_directory := home +:+ "/experiments/pdf";
  result_directory := home +:+ "/nemo/experiments/random_search_prior"
|}.

(** The arguments of the call of [openmlpimp.utils.obtain_priors]. *)
Record priors_request : Type := {
  req_cache_dir : string;
  req_study_id : string;
  req_flow_id : Z;
  req_hyperparameters : gmap string hyperparameter;
  req_fixed_parameters : option (list (string * json));
  req_holdout : option (list Z);
  req_bestN : Z
}.

(** [os.path.join] of two components. *)
Definition os_path_join (a b : string) : string :=
  if startswith b "/" then b
  else if bool_decide (a = "") || String.prefix "/" (String.rev a) then a +:+ b
  else a +:+ "/" +:+ b.

(** [x == y] on the values of a prior. It need not be reflexive: on
    floats it is the equality of IEEE 754, under which NaN differs from
    itself. *)
Class PyEq (V : Type) : Type := py_eq : V -> V -> bool.

(** [all(p(x) for x in l)]: the elements are tested one at a time and the
    first that fails ends the test. *)
Fixpoint py_all {A : Type} (p : A -> result bool) (l : list A) : result bool :=
  match l with
  | [] => Ok true
  | x :: l' => let* b := p x in if b then py_all p l' else Ok false
  end.

Section Main.
Context {V : Type} `{EqDecision V} `{PyEq V}.

(** The collaborators of the script: the suffix of a set of fixed
    parameters, the relevant hyperparameters of the configuration space
    of a classifier, [os.listdir], the prior utility and the sampler of
    [rv_discrete]. *)
Record collaborators : Type := {
  fixed_parameters_to_suffix : option (list (string * json)) -> string;
  relevant_hyperparameters : string -> result (gmap string hyperparameter);
  os_listdir : string -> result (list string);
  obtain_priors : priors_request -> result (list (string * list V));
  rvs : list nat -> list float -> nat -> result (list nat)
}.

Variables (fs : filesystem V) (lib : numeric_library V) (ext : collaborators).

(** [important_parameters]: a copy of the fixed parameters, or an empty
    dictionary, with ['bestN'] set to the command line's value. *)
Definition important_parameters (args : arguments) : list (string * json) :=
  odict_set (default [] (fixed_parameters args)) "bestN" (JInt (bestN args)).

Definition cache_folder_suffix (args : arguments) : string :=
  fixed_parameters_to_suffix ext (fixed_parameters args).

Definition save_folder_suffix (args : arguments) : string :=
  fixed_parameters_to_suffix ext (Some (important_parameters args)).

Definition output_dir (args : arguments) : string :=
  output_directory args +:+ "/" +:+ classifier args +:+ "/" +:+ save_folder_suffix args.

Definition cache_dir (args : arguments) : string :=
  cache_directory args +:+ "/" +:+ classifier args +:+ "/" +:+ cache_folder_suffix args.

Definition results_dir (args : arguments) : string :=
  result_directory args +:+ "/" +:+ classifier args +:+ "/" +:+ save_folder_suffix args.

(** The loop over [os.listdir(results_dir)] that fills
    [obtained_results]. *)
Fixpoint obtain_results (dir : string) (strategies : list string)
    (obtained_results : list (string * gmap string (list V)))
  : result (list (string * gmap string (list V))) :=
  match strategies with
  | [] => Ok obtained_results
  | strategy :: strategies' =>
      let* sampled := obtain_sampled_parameters fs (os_path_join dir strategy) in
      obtain_results dir strategies' (odict_set obtained_results strategy sampled)
  end.

(** The call of [obtain_priors] on line 139. *)
Definition priors_call (args : arguments)
    (hyperparameters : gmap string hyperparameter) : priors_request := {|
  req_cache_dir := cache_dir args;
  req_study_id := study_id args;
  req_flow_id := flow_id args;
  req_hyperparameters := hyperparameters;
  req_fixed_parameters := fixed_parameters args;
  req_holdout := None;
  req_bestN := 10
|}.

(** [all(x == priors[0] for x in priors)]. *)
Definition degenerate (priors : list V) : result bool :=
  py_all (fun x => let* first := py_index priors 0 in Ok (py_eq x first))
    priors.

(** The loop [for strategy in obtained_results] that completes [data]
    for one parameter. Reading [obtained_results[strategy][param_name]]
    is a read of a [defaultdict]; the dictionaries as the reads leave
    them are returned with the data. *)
Fixpoint strategy_data (param_name : string)
    (obtained_results : list (string * gmap string (list V)))
    (data : list (string * samples V))
  : result (list (string * samples V) * list (string * gmap string (list V))) :=
  match obtained_results with
  | [] => Ok (data, [])
  | (strategy, sampled) :: rest =>
      let '(values, sampled') := defaultdict_getitem sampled param_name in
      let* arr := np_array_float64 lib values in
      let* (data', rest') :=
        strategy_data param_name rest (odict_set data strategy (Float64Array arr)) in
      Ok (data', (strategy, sampled') :: rest')
  end.

(** A call of one of the two plotters. *)
Inductive plot_call : Type :=
  | CallNumeric (h : numerical) (data : list (string * samples V))
      (output_dir parameter_name : string)
  | CallCategorical (X : list V) (output_dir parameter_name : string).

(** What a call draws. *)
Inductive figure : Type :=
  | NumericFigure (cmds : list (command (samples V) float))
  | CategoricalFigure (cmds : list (command (samples V) float)).

Definition run_call (c : plot_call) : result figure :=
  match c with
  | CallNumeric h data dir pname =>
      let* cmds := plot_numeric lib h data dir pname in Ok (NumericFigure cmds)
  | CallCategorical X dir pname =>
      let* cmds :=
        plot_categorical PrimFloat.zero PrimFloat.add float_recip (rvs ext)
          X dir pname in
      Ok (CategoricalFigure cmds)
  end.

(** One turn of the loop over [param_priors.items()], up to the call of
    a plotter: [None] when the turn ends without a call. *)
Definition dispatch (hyperparameters : gmap string hyperparameter)
    (out_dir : string) (obtained_results : list (string * gmap string (list V)))
    (param_name : string) (priors : list V)
  : result (option plot_call * list (string * gmap string (list V))) :=
  let* skip := degenerate priors in
  if skip then Ok (None, obtained_results)
  else
    match hyperparameters !! param_name with
    | None => Raise (KeyError param_name)
    | Some (NumericalHyperparameter h) =>
        let data := [("gaussian_kde", RawList priors)] in
        let* (data', obtained_results') :=
          strategy_data param_name obtained_results data in
        Ok (Some (CallNumeric h data' (out_dir +:+ "/") param_name),
            obtained_results')
    | Some (CategoricalHyperparameter _ _) =>
        Ok (Some (CallCategorical priors (out_dir +:+ "/") param_name),
            obtained_results)
    | Some (Constant _ _) => Ok (None, obtained_results)
    end.

(** The loop over [param_priors.items()]: the figures drawn, each with
    the name of its parameter. *)
Fixpoint plot_parameters (hyperparameters : gmap string hyperparameter)
    (out_dir : string) (obtained_results : list (string * gmap string (list V)))
    (param_priors : list (string * list V)) : result (list (string * figure)) :=
  match param_priors with
  | [] => Ok []
  | (param_name, priors) :: rest =>
      let* (call, obtained_results') :=
        dispatch hyperparameters out_dir obtained_results param_name priors in
      let* drawn :=
        match call with
        | Some c => let* fig := run_call c in Ok [(param_name, fig)]
        | None => Ok []
        end in
      let* figs := plot_parameters hyperparameters out_dir obtained_results' rest in
      Ok (drawn ++ figs)
  end.

(** The script. [args.result_directory] is a string (the flag has a string
    default), so the test [is not None] holds and the strategies are
    always read. *)
Definition main (args : arguments) : result (list (string * figure)) :=
  let* hyperparameters := relevant_hyperparameters ext (classifier args) in
  let* strategies := os_listdir ext (results_dir args) in
  let* obtained_results := obtain_results (results_dir args) strategies [] in
  let* param_priors := obtain_priors ext (priors_call args hyperparameters) in
  plot_parameters hyperparameters (output_dir args) obtained_results param_priors.
End Main.

Arguments collaborators V : clear implicits.
Arguments plot_call V : clear implicits.
Arguments figure V : clear implicits.

(** ** What a figure shows *)

(** The subplots a legend is attached to, in the order of the calls. *)
Definition legend_axes {R N : Type} (cmds : list (command R N)) : list nat :=
  omap (fun c => match c with Legend ax _ => Some ax | _ => None end) cmds.

(** The labelled series drawn on subplot [ax], each with its line format
    or colour, in the order they are drawn. *)
Definition labelled_series {R N : Type} (ax : nat) (cmds : list (command R N))
  : list (string * string) :=
  omap (fun c =>
          match c with
          | Plot ax' _ _ fmt (Some label) =>
              if decide (ax' = ax) then Some (label, fmt) else None
          | Step ax' _ _ colour label =>
              if decide (ax' = ax) then Some (label, colour) else None
          | _ => None
          end) cmds.

(** The files written. *)
Definition saved_files {R N : Type} (cmds : list (command R N)) : list string :=
  omap (fun c => match c with Savefig path => Some path | _ => None end) cmds.

(** The density estimate, its evaluation and the conversion to an array
    succeed for every sample sequence of [data]. *)
Definition estimable {V : Type} (lib : numeric_library V) (h : numerical)
    (data : list (string * samples V)) : Prop :=
  Forall (fun strategy =>
            (exists dist density,
               gaussian_kde_wrapper lib h (name h) strategy.2 = Ok dist /\
               pdf lib dist (X_values_plot lib h) = Ok density) /\
            exists arr, np_array lib strategy.2 = Ok arr) data.

(** ** Instances for the examples *)

(** An ascending sort for the examples. *)
Fixpoint sorted_insert (x : float) (l : list float) : list float :=
  match l with
  | [] => [x]
  | y :: l' => if PrimFloat.leb x y then x :: y :: l' else y :: sorted_insert x l'
  end.

(** Libraries for the examples: raw values are rationals with small
    numerators and denominators, converted by one division;
    [np.power(x, 1.0)] is [x] as a [float64]; the density estimate keeps
    its samples and its density is 0 everywhere; the random numbers are
    all 0. *)
Definition example_library : numeric_library Q := {|
  np_power := fun x _ => np_float64 x;
  float_of_value := fun v =>
    Ok (PrimFloat.div (float_of_Z (Qnum v)) (float_of_Z (Zpos (Qden v))));
  np_sort := foldr sorted_insert [];
  np_random_random := fun n => replicate n PrimFloat.zero;
  distribution := list float;
  gaussian_kde_wrapper := fun _ _ s =>
    match s with
    | RawList l =>
        Ok (map (fun v => PrimFloat.div (float_of_Z (Qnum v))
                            (float_of_Z (Zpos (Qden v)))) l)
    | Float64Array a => Ok a
    end;
  pdf := fun _ xs => Ok (map (fun _ => PrimFloat.zero) xs)
|}.

Definition n_estimators : numerical :=
  {| name := "n_estimators"; lower := PyInt 50; upper := PyInt 500; log := false |}.

(** An integer hyperparameter whose upper bound, 2^53 + 1, is not a
    binary64 value. *)
Definition wide_range : numerical :=
  {| name := "wide_range"; lower := PyInt 1; upper := PyInt 9007199254740993;
     log := false |}.

(** The strategies of the end-to-end scenario, and two more. *)
Definition two_strategies : list (string * samples Q) :=
  [ ("gaussian_kde", RawList [15; 18; 22; 30]%Q);
    ("random_search", Float64Array [10; 20; 30]%float) ].

Definition four_strategies : list (string * samples Q) :=
  two_strategies
  ++ [ ("grid_search", Float64Array [50; 100]%float);
       ("bayesian", Float64Array [60; 70]%float) ].

#[global] Instance Q_eq_dec : EqDecision Q.
Proof. solve_decision. Defined.

(** [==] on the rationals of the examples is equality of the numbers. *)
#[global] Instance Q_py_eq : PyEq Q := Qeq_bool.

(** [==] on floats. *)
#[global] Instance float_py_eq : PyEq float := PrimFloat.eqb.

(** Two archived tables of the strategy [random_search]. *)
Definition table_a : arff_file Q := {|
  attributes := [ ("setup_id", "NUMERIC");
                  ("parameter_classifier__n_estimators", "NUMERIC");
                  ("parameter_classifier__learning_rate", "NUMERIC");
                  ("parameter_alpha", "NUMERIC") ];
  data := [ [1; 10; 1 # 2; 7]; [2; 20; 1 # 4; 8] ]%Q
|}.

Definition table_b : arff_file Q := {|
  attributes := [ ("parameter_classifier__n_estimators", "NUMERIC") ];
  data := [ [30] ]%Q
|}.

Definition example_fs : filesystem Q := {|
  fs_glob := fun pattern =>
    if bool_decide (pattern = "results/adaboost/bestN_10/random_search/*/*.arff")
    then [ "results/adaboost/bestN_10/random_search/0/a.arff";
           "results/adaboost/bestN_10/random_search/1/b.arff" ]
    else [];
  arff_load := fun path =>
    if bool_decide (path = "results/adaboost/bestN_10/random_search/0/a.arff")
    then Ok table_a
    else if bool_decide (path = "results/adaboost/bestN_10/random_search/1/b.arff")
    then Ok table_b
    else Raise (OSError path)
|}.

Definition max_features : numerical :=
  {| name := "max_features"; lower := PyFloat 0x1.999999999999ap-4;
     upper := PyFloat 1; log := false |}.

(** Collaborators of the end-to-end scenario: one strategy directory, a
    prior for [n_estimators], a degenerate prior for [max_depth], an empty
    one for [subsample] and a prior for [max_features], which no archived
    table has a column for. The sampler refuses an empty support. *)
Definition example_collaborators : collaborators Q := {|
  fixed_parameters_to_suffix := fun fixed =>
    match fixed with
    | Some [(k, JInt z)] => k +:+ "_" +:+ (if decide (z = 10%Z) then "10" else "N")
    | _ => "all"
    end;
  relevant_hyperparameters := fun _ =>
    Ok (<["n_estimators" := NumericalHyperparameter n_estimators]>
        (<["max_features" := NumericalHyperparameter max_features]>
         (<["max_depth" := NumericalHyperparameter
              {| name := "max_depth"; lower := PyInt 1; upper := PyInt 10;
                 log := false |}]> ∅)));
  os_listdir := fun _ => Ok ["random_search"];
  obtain_priors := fun _ =>
    Ok [ ("n_estimators", [15; 18; 22; 30]%Q);
         ("max_depth", [3; 3; 3]%Q);
         ("subsample", []);
         ("max_features", [1 # 2; 1]%Q) ];
  rvs := fun xk _ n =>
    match xk with
    | [] => Raise ValueError
    | _ => Ok (replicate n 0)
    end
|}.

Definition example_arguments : arguments := {|
  flow_id := 6970;
  study_id := "OpenML100";
  classifier := "adaboost";
  fixed_parameters := None;
  bestN := 10;
  cache_directory := "cache";
  output_directory := "pdf";
  result_directory := "results"
|}.

(** The same command line with [--bestN 20]. *)
Definition arguments_bestN_20 : arguments := {|
  flow_id := 6970;
  study_id := "OpenML100";
  classifier := "adaboost";
  fixed_parameters := None;
  bestN := 20;
  cache_directory := "cache";
  output_directory := "pdf";
  result_directory := "results"
|}.

(** ** Further observations and instances *)

(** The calls of [plt.subplots]: the number of rows and whether the
    subplots share their x axis. *)
Definition subplot_grids {R N : Type} (cmds : list (command R N)) : list (nat * bool) :=
  omap (fun c => match c with Subplots rows sharex => Some (rows, sharex) | _ => None end)
    cmds.

(** The exact differences between neighbours in a list of finite
    binary64 values. *)
Fixpoint neighbour_gaps (l : list float) : list Q :=
  match l with
  | x :: ((y :: _) as l') =>
      match float_value x, float_value y with
      | Some qx, Some qy => Qred (qy - qx) :: neighbour_gaps l'
      | _, _ => neighbour_gaps l'
      end
  | _ => []
  end.

(** The abscissae of the labelled curves of the top subplot. *)
Definition curve_grids {R N : Type} (cmds : list (command R N)) : list (list N) :=
  omap (fun c => match c with Plot 0 xs _ _ (Some _) => Some xs | _ => None end) cmds.

(** The step functions drawn on the bottom subplot: label, abscissae and
    ordinates of each. *)
Definition step_functions {R N : Type} (cmds : list (command R N))
  : list (string * list N * list N) :=
  omap (fun c => match c with
                 | Step 1 xs ys _ label => Some (label, xs, ys)
                 | _ => None
                 end) cmds.

(** The calls of [set_xlim], each with its subplot. *)
Definition xlims {R N : Type} (cmds : list (command R N)) : list (nat * N * N) :=
  omap (fun c => match c with SetXlim ax lo hi => Some (ax, lo, hi) | _ => None end) cmds.

(** The data plotted as they are on the top subplot, with their format. *)
Definition point_clouds {R N : Type} (cmds : list (command R N)) : list (R * string) :=
  omap (fun c => match c with Points 0 xs _ fmt => Some (xs, fmt) | _ => None end) cmds.

(** A row of [data] and the step function drawn for it: the label of the
    row, what [np.sort] makes of its array, and as many ordinates, the
    one at position [j] being [(j + 1) / n] in binary64 for [n] of
    them. *)
Definition drawn_as {V : Type} (lib : numeric_library V)
    (strategy : string * samples V) (step : string * list float * list float) : Prop :=
  step.1.1 = strategy.1 /\
  exists arr, np_array lib strategy.2 = Ok arr /\
    step.1.2 = np_sort lib arr /\
    length step.2 = length step.1.2 /\
    forall j y, step.2 !! j = Some y ->
      y = PrimFloat.div (float_of_nat (S j)) (float_of_nat (length step.1.2)).

(** The files a figure of the loop was saved to. *)
Definition figure_files {V : Type} (fig : figure V) : list string :=
  match fig with
  | NumericFigure cmds => saved_files cmds
  | CategoricalFigure cmds => saved_files cmds
  end.

(** Two lists of parsed mappings read alike: the same strategies in the
    same order, and under every key the same list, a missing key reading
    as the empty list. *)
Definition same_reads {V : Type} (st st' : list (string * gmap string (list V))) : Prop :=
  Forall2 (fun a b => a.1 = b.1 /\
             forall k, (defaultdict_getitem a.2 k).1 = (defaultdict_getitem b.2 k).1)
    st st'.

(** The data of a parameter read without storing anything: what
    [strategy_data] computes when a missing key reads as the empty list. *)
Fixpoint read_strategies {V : Type} (lib : numeric_library V) (param_name : string)
    (obtained_results : list (string * gmap string (list V)))
    (data : list (string * samples V)) : result (list (string * samples V)) :=
  match obtained_results with
  | [] => Ok data
  | (strategy, sampled) :: rest =>
      let* arr := np_array_float64 lib (default [] (sampled !! param_name)) in
      read_strategies lib param_name rest (odict_set data strategy (Float64Array arr))
  end.

(** The mappings after each has been read at [param_name]. *)
Definition touch {V : Type} (param_name : string)
    (obtained_results : list (string * gmap string (list V)))
  : list (string * gmap string (list V)) :=
  (fun sm => (sm.1, (defaultdict_getitem sm.2 param_name).2)) <$> obtained_results.

(** A file system with a file that cannot be read. *)
Definition faulty_fs : filesystem Q := {|
  fs_glob := fun pattern =>
    if bool_decide (pattern = "unreadable/*/*.arff")
    then [ "a.arff"; "unreadable.arff"; "b.arff" ]
    else [];
  arff_load := fun path =>
    if bool_decide (path = "a.arff") then Ok table_a
    else if bool_decide (path = "b.arff") then Ok table_b
    else Raise (OSError path)
|}.

(** * Properties *)

#[local] Arguments String.append !s1 s2 : simpl nomatch.

(** ** Exceptions and comprehensions *)

Lemma bind_Ok {A B : Type} (m : result A) (k : A -> result B) (b : B) :
  bind m k = Ok b -> exists a, m = Ok a /\ k a = Ok b.
Proof. destruct m as [a|e]; simpl; [eauto | discriminate]. Qed.




(** ** [str.split] *)

Lemma prefix_true (p s : string) :
  String.prefix p s = true -> exists q, s = p +:+ q.
Proof.
  revert s. induction p as [|c p IH]; intros s H.
  - exists s. reflexivity.
  - destruct s as [|c' s]; simpl in H; [discriminate|].
    destruct (Ascii.ascii_dec c c') as [->|]; [|discriminate].
    destruct (IH s H) as [q ->]. exists q. reflexivity.
Qed.

Lemma occurs_tail (sep : string) (c : Ascii.ascii) (s : string) :
  occurs sep s -> occurs sep (String c s).
Proof. intros (p & q & ->). exists (String c p), q. reflexivity. Qed.

Lemma split_from_nonempty (sep : string) (skip : nat) (s : string) :
  split_from sep skip s <> [].
Proof.
  revert skip. induction s as [|c s IH]; intros skip; cbn [split_from];
    [discriminate|].
  destruct skip; [|apply IH].
  destruct (String.prefix sep (String c s)); [discriminate|].
  destruct (split_from sep 0 s); discriminate.
Qed.

Lemma split_absent (sep s : string) :
  ~ occurs sep s -> split s sep = [s].
Proof.
  unfold split. induction s as [|c s IH]; intros Hno; cbn [split_from];
    [reflexivity|].
  destruct (String.prefix sep (String c s)) eqn:Hp.
  - exfalso. apply Hno. destruct (prefix_true _ _ Hp) as [q Hq].
    exists "", q. exact Hq.
  - rewrite IH; [reflexivity|]. intros H. apply Hno, occurs_tail, H.
Qed.

Lemma canonical_name_absent (attribute_name : string) :
  ~ occurs "__" attribute_name -> canonical_name attribute_name = attribute_name.
Proof. intros H. unfold canonical_name. rewrite (split_absent _ _ H). reflexivity. Qed.

Lemma string_app_assoc (a b c : string) : (a +:+ b) +:+ c = a +:+ (b +:+ c).
Proof. induction a as [|x a IH]; simpl; [reflexivity | f_equal; exact IH]. Qed.

Lemma string_drop_app (a b : string) : string_drop (String.length a) (a +:+ b) = b.
Proof. induction a as [|x a IH]; simpl; [by destruct b | exact IH]. Qed.

Lemma prefix_app (p q : string) : String.prefix p (p +:+ q) = true.
Proof.
  induction p as [|c p IH]; simpl; [by destruct q|].
  destruct (Ascii.ascii_dec c c); [exact IH | congruence].
Qed.

Lemma join_cons (sep x : string) (l : list string) :
  l <> [] -> join sep (x :: l) = x +:+ sep +:+ join sep l.
Proof. destruct l; [congruence | reflexivity]. Qed.

Lemma join_snoc (sep x : string) (l : list string) :
  l <> [] -> join sep (l ++ [x]) = join sep l +:+ sep +:+ x.
Proof.
  induction l as [|y l IH]; [congruence|]. intros _.
  destruct l as [|z l]; [reflexivity|].
  change (join sep ((y :: z :: l) ++ [x]))
    with (y +:+ sep +:+ join sep ((z :: l) ++ [x])).
  rewrite IH by discriminate.
  change (join sep (y :: z :: l)) with (y +:+ sep +:+ join sep (z :: l)).
  by rewrite !string_app_assoc.
Qed.

(** Joining the pieces with the separator gives the string back. *)
Lemma join_split_from (sep : string) (skip : nat) (s : string) :
  sep <> "" -> join sep (split_from sep skip s) = string_drop skip s.
Proof.
  intros Hsep. revert skip. induction s as [|c s IH]; intros skip.
  - destruct skip; reflexivity.
  - destruct skip as [|k]; [|exact (IH k)].
    cbn [split_from string_drop].
    destruct (String.prefix sep (String c s)) eqn:Hp.
    + rewrite join_cons by apply split_from_nonempty. rewrite IH.
      destruct (prefix_true _ _ Hp) as [q Hq].
      destruct sep as [|c' sep']; [congruence|].
      simpl in Hq. injection Hq as -> ->.
      simpl. rewrite Nat.sub_0_r, string_drop_app. reflexivity.
    + specialize (IH 0). simpl in IH.
      pose proof (split_from_nonempty sep 0 s) as Hne.
      destruct (split_from sep 0 s) as [|x xs]; [congruence|].
      destruct xs; simpl in *; by subst.
Qed.

Lemma join_split (sep s : string) : sep <> "" -> join sep (split s sep) = s.
Proof. intros H. unfold split. by rewrite join_split_from. Qed.

(** No separator is left in the last piece. *)
Lemma last_piece_clean (sep : string) (skip : nat) (s : string) :
  sep <> "" -> ~ occurs sep (last_piece (split_from sep skip s)).
Proof.
  intros Hsep. revert skip. induction s as [|c s IH]; intros skip.
  - destruct skip; cbn; intros (p & q & H);
      destruct p; simpl in H; destruct sep; simpl in H; congruence.
  - destruct skip as [|k]; [|exact (IH k)].
    cbn [split_from].
    destruct (String.prefix sep (String c s)) eqn:Hp.
    + pose proof (split_from_nonempty sep (String.length sep - 1) s) as Hne.
      specialize (IH (String.length sep - 1)). unfold last_piece in *.
      destruct (split_from sep (String.length sep - 1) s); [congruence | exact IH].
    + pose proof (join_split_from sep 0 s Hsep) as Hj. specialize (IH 0).
      pose proof (split_from_nonempty sep 0 s) as Hne.
      unfold last_piece in *.
      destruct (split_from sep 0 s) as [|x xs]; [congruence|].
      destruct xs as [|y ys]; [|exact IH].
      simpl in Hj. subst x. simpl. intros (p & q & H). destruct p as [|c' p].
      * simpl in H. rewrite H, prefix_app in Hp. discriminate.
      * simpl in H. injection H as _ H. apply IH. by exists p, q.
Qed.

(** When the separator occurs, the canonical name is what follows one of
    its occurrences, and no occurrence is left in the canonical name. *)
Lemma canonical_name_after (attribute_name : string) :
  occurs "__" attribute_name ->
  exists p, attribute_name = p +:+ "__" +:+ canonical_name attribute_name.
Proof.
  intros Hocc. unfold canonical_name.
  pose proof (join_split "__" attribute_name ltac:(discriminate)) as Hj.
  pose proof (last_piece_clean "__" 0 attribute_name ltac:(discriminate)) as Hc.
  fold (split attribute_name "__") in Hc.
  pose proof (split_from_nonempty "__" 0 attribute_name) as Hne.
  fold (split attribute_name "__") in Hne.
  destruct (split attribute_name "__") as [|x xs] using rev_ind; [congruence|].
  clear IHxs. unfold last_piece in *. rewrite last_last in *.
  destruct xs as [|y ys].
  - simpl in Hj. subst x. contradiction.
  - rewrite join_snoc in Hj by discriminate. eauto.
Qed.

Lemma canonical_name_clean (attribute_name : string) :
  ~ occurs "__" (canonical_name attribute_name).
Proof. apply (last_piece_clean "__" 0). discriminate. Qed.

(** ** The archived-sample parser *)

Section ParserProperties.
Context {V : Type}.
Implicit Types (values m : gmap string (list V)) (rows : list (list V)).
Implicit Types (af : arff_file V) (fs : filesystem V).

(** What a read of the [defaultdict] returns. *)
Lemma defaultdict_getitem_fst values k :
  (defaultdict_getitem values k).1 = default [] (values !! k).
Proof. unfold defaultdict_getitem. by destruct (values !! k). Qed.

Lemma defaultdict_extend_lookup values k l k' :
  default [] (defaultdict_extend values k l !! k')
  = if decide (k = k') then default [] (values !! k) ++ l
    else default [] (values !! k').
Proof.
  unfold defaultdict_extend, defaultdict_getitem.
  destruct (decide (k = k')) as [->|Hne]; destruct (values !! k') as [old|] eqn:E.
  - by rewrite lookup_insert_eq.
  - by rewrite lookup_insert_eq.
  - destruct (values !! k); by rewrite !lookup_insert_ne, ?E.
  - destruct (values !! k); by rewrite !lookup_insert_ne, ?E.
Qed.


Lemma column_cells rows idx :
  Forall (fun row => idx < length row) rows ->
  column rows idx = Ok (rows ≫= (fun row => option_list (row !! idx))).
Proof.
  unfold column. induction 1 as [|row rows Hrow _ IH]; [reflexivity|].
  cbn [for_each]. rewrite IH. unfold py_index.
  destruct (lookup_lt_is_Some_2 row idx Hrow) as [v Hv].
  rewrite bind_cons, Hv. reflexivity.
Qed.

Lemma scan_attributes_cells rows attrs : forall idx values,
  Forall (fun row => idx + length attrs <= length row) rows ->
  exists m, scan_attributes rows idx attrs values = Ok m /\
    forall k, default [] (m !! k)
              = default [] (values !! k) ++ attribute_cells rows idx attrs k.
Proof.
  induction attrs as [|[aname ty] attrs IH]; intros idx values Hrows.
  - exists values. split; [reflexivity|]. intros k. simpl. by rewrite app_nil_r.
  - cbn [scan_attributes attribute_cells fst].
    assert (Forall (fun row => S idx + length attrs <= length row) rows) as Hrows'.
    { eapply Forall_impl; [exact Hrows|]. simpl. intros. lia. }
    destruct (startswith aname "parameter_") eqn:Hp.
    + rewrite column_cells.
      2:{ eapply Forall_impl; [exact Hrows|]. simpl. intros. lia. }
      cbn [bind].
      destruct (IH (S idx) (defaultdict_extend values (canonical_name aname)
        (rows ≫= (fun row => option_list (row !! idx)))) Hrows') as (m & Hm & Hk).
      exists m. split; [exact Hm|]. intros k. rewrite Hk.
      rewrite defaultdict_extend_lookup. cbn [andb].
      destruct (decide (canonical_name aname = k)) as [->|Hne].
      * rewrite bool_decide_eq_true_2 by done. by rewrite app_assoc.
      * by rewrite bool_decide_eq_false_2.
    + destruct (IH (S idx) values Hrows') as (m & Hm & Hk).
      exists m. split; [exact Hm|]. intros k. by rewrite Hk.
Qed.

Lemma scan_files_cells fs files : forall afs values,
  for_each (arff_load fs) files = Ok afs ->
  Forall rectangular afs ->
  exists m, scan_files fs files values = Ok m /\
    forall k, default [] (m !! k)
              = default [] (values !! k) ++ (afs ≫= (fun af => file_cells af k)).
Proof.
  induction files as [|file files IH]; intros afs values Hload Hrect.
  - injection Hload as <-. exists values. split; [reflexivity|].
    intros k. by rewrite app_nil_r.
  - cbn [for_each scan_files] in *.
    destruct (arff_load fs file) as [af|]; [|discriminate]. cbn [bind] in *.
    destruct (for_each (arff_load fs) files) as [afs'|]; [|discriminate].
    injection Hload as <-. apply Forall_cons in Hrect as [Haf Hrect].
    destruct (scan_attributes_cells (data af) (attributes af) 0 values)
      as (m1 & Hm1 & Hk1).
    { eapply Forall_impl; [exact Haf|]. simpl. intros. lia. }
    rewrite Hm1. cbn [bind].
    destruct (IH afs' m1 eq_refl Hrect) as (m & Hm & Hk).
    exists m. split; [exact Hm|]. intros k.
    rewrite Hk, Hk1, bind_cons. unfold file_cells. by rewrite app_assoc.
Qed.

(** A cell of a parameter column is among the cells of its key. *)
Lemma attribute_cells_elem rows attrs : forall idx j aname ty row v,
  attrs !! j = Some (aname, ty) ->
  startswith aname "parameter_" = true ->
  row ∈ rows -> row !! (idx + j) = Some v ->
  v ∈ attribute_cells rows idx attrs (canonical_name aname).
Proof.
  induction attrs as [|attribute attrs IH]; intros idx j aname ty row v Hj Hp Hrow Hv;
    [done|].
  cbn [attribute_cells]. apply elem_of_app. destruct j as [|j].
  - left. injection Hj as ->. cbn [fst]. rewrite Hp, bool_decide_eq_true_2 by done.
    cbn [andb]. apply list_elem_of_bind. exists row. split; [|exact Hrow].
    rewrite Nat.add_0_r in Hv. rewrite Hv. apply list_elem_of_here.
  - right. apply (IH (S idx) j aname ty row v); auto.
    by replace (S idx + j) with (idx + S j) by lia.
Qed.


End ParserProperties.

Section ParserTheorems.
Context {V : Type}.
Implicit Types (m : gmap string (list V)) (af : arff_file V) (fs : filesystem V).

Lemma obtain_sampled_parameters_cells fs directory afs :
  scanned fs directory = Ok afs ->
  Forall rectangular afs ->
  exists m, obtain_sampled_parameters fs directory = Ok m /\
    (forall k, (defaultdict_getitem m k).1 = afs ≫= (fun af => file_cells af k)) /\
    (forall af j aname ty row v,
       af ∈ afs -> attributes af !! j = Some (aname, ty) ->
       startswith aname "parameter_" = true ->
       row ∈ data af -> row !! j = Some v ->
       v ∈ (defaultdict_getitem m (canonical_name aname)).1).
Proof.
  intros Hload Hrect. unfold obtain_sampled_parameters.
  destruct (scan_files_cells fs _ afs ∅ Hload Hrect) as (m & Hm & Hk).
  exists m. split; [exact Hm|].
  assert (forall k, (defaultdict_getitem m k).1 = afs ≫= (fun af => file_cells af k))
    as Hcells.
  { intros k. rewrite defaultdict_getitem_fst, Hk, lookup_empty. reflexivity. }
  split; [exact Hcells|].
  intros af j aname ty row v Haf Hj Hp Hrow Hv. rewrite Hcells.
  apply list_elem_of_bind. exists af. split; [|exact Haf].
  unfold file_cells. by eapply (attribute_cells_elem _ _ 0 j).
Qed.

(** C1: for every directory, when the files the glob matches load and
    are rectangular tables, [obtain_sampled_parameters] returns a mapping
    in which the list under a key is, file after file in glob order and
    row after row, the cells of the columns whose attribute name begins
    with [parameter_] and whose canonical name is that key; so every
    cell of such a column is under the last piece of its attribute name
    split on [__], a piece that holds no [__] and that follows a [__] of
    the name when the name has one. When the glob matches no file the
    mapping is empty and nothing is raised. *)
Theorem obtain_sampled_parameters_accumulates fs directory :
  (fs_glob fs (directory +:+ "/*/*.arff") = [] ->
     obtain_sampled_parameters fs directory = Ok ∅) /\
  (forall afs,
     scanned fs directory = Ok afs ->
     Forall rectangular afs ->
     exists m, obtain_sampled_parameters fs directory = Ok m /\
       (forall k, (defaultdict_getitem m k).1 = afs ≫= (fun af => file_cells af k)) /\
       (forall af j aname ty row v,
          af ∈ afs -> attributes af !! j = Some (aname, ty) ->
          startswith aname "parameter_" = true ->
          row ∈ data af -> row !! j = Some v ->
          v ∈ (defaultdict_getitem m (canonical_name aname)).1 /\
          ~ occurs "__" (canonical_name aname) /\
          (occurs "__" aname ->
             exists p, aname = p +:+ "__" +:+ canonical_name aname))).
Proof.
  split.
  - intros Hglob. unfold obtain_sampled_parameters. rewrite Hglob. reflexivity.
  - intros afs Hload Hrect.
    destruct (obtain_sampled_parameters_cells fs directory afs Hload Hrect)
      as (m & Hm & Hcells & Hin).
    exists m. split; [exact Hm|]. split; [exact Hcells|].
    intros af j aname ty row v Haf Hj Hp Hrow Hv. split; [by eapply Hin|].
    split; [apply canonical_name_clean | apply canonical_name_after].
Qed.

(** C10: an attribute whose name begins with [parameter_] and holds no
    [__] has its whole raw name, prefix included, as canonical name, and
    the cells of its column are under that key of the mapping
    [obtain_sampled_parameters] returns. *)
Theorem parameter_without_separator_key fs directory afs af j aname ty :
  scanned fs directory = Ok afs ->
  Forall rectangular afs ->
  af ∈ afs -> attributes af !! j = Some (aname, ty) ->
  startswith aname "parameter_" = true ->
  ~ occurs "__" aname ->
  last_piece (split aname "__") = aname /\
  exists m, obtain_sampled_parameters fs directory = Ok m /\
    forall row v, row ∈ data af -> row !! j = Some v ->
      v ∈ (defaultdict_getitem m aname).1.
Proof.
  intros Hload Hrect Haf Hj Hp Hno.
  pose proof (canonical_name_absent aname Hno) as Hc.
  split; [exact Hc|].
  destruct (obtain_sampled_parameters_cells fs directory afs Hload Hrect)
    as (m & Hm & _ & Hin).
  exists m. split; [exact Hm|]. intros row v Hrow Hv.
  rewrite <- Hc. by eapply Hin.
Qed.
End ParserTheorems.

(** ** Ordered dictionaries *)

Section OrderedDictProperties.
Context {K A : Type} `{EqDecision K}.
Implicit Types (d : list (K * A)) (L : list K) (g : K -> A).

Lemma odict_set_fresh d k v : k ∉ d.*1 -> odict_set d k v = d ++ [(k, v)].
Proof.
  induction d as [|[k' v'] d IH]; intros Hk; [reflexivity|].
  cbn [odict_set]. apply not_elem_of_cons in Hk as [Hne Hk].
  destruct (decide (k' = k)); [by subst|]. by rewrite IH.
Qed.

Lemma odict_get_set d k v : odict_get (odict_set d k v) k = Some v.
Proof.
  induction d as [|[k' v'] d IH]; simpl.
  - by rewrite decide_True.
  - destruct (decide (k' = k)); simpl.
    + by rewrite decide_True.
    + by rewrite decide_False.
Qed.

Lemma odict_get_set_ne d k k' v :
  k <> k' -> odict_get (odict_set d k v) k' = odict_get d k'.
Proof.
  intros Hne. induction d as [|[k0 v0] d IH]; simpl.
  - by rewrite decide_False.
  - destruct (decide (k0 = k)) as [->|]; simpl.
    + by rewrite !decide_False.
    + destruct (decide (k0 = k')); [done | exact IH].
Qed.

Lemma odict_set_set d k v w : odict_set (odict_set d k v) k w = odict_set d k w.
Proof.
  induction d as [|[k' v'] d IH]; simpl.
  - by rewrite decide_True.
  - destruct (decide (k' = k)); simpl.
    + by rewrite decide_True.
    + by rewrite decide_False, IH.
Qed.


Lemma tabulate_keys g L : (tabulate g L).*1 = L.
Proof. induction L as [|k L IH]; simpl; [reflexivity | f_equal; exact IH]. Qed.

Lemma tabulate_ext g (g' : K -> A) L :
  (forall k, k ∈ L -> g k = g' k) -> tabulate g L = tabulate g' L.
Proof.
  induction L as [|k L IH]; intros Hg; [reflexivity|]. simpl.
  rewrite (Hg k) by apply list_elem_of_here. f_equal.
  apply IH. intros k' Hk'. apply Hg. by apply list_elem_of_further.
Qed.

Lemma odict_get_tabulate g L k : k ∈ L -> odict_get (tabulate g L) k = Some (g k).
Proof.
  induction L as [|k' L IH]; intros Hk; [by apply elem_of_nil in Hk|].
  simpl. destruct (decide (k' = k)) as [->|Hne]; [reflexivity|].
  apply IH. apply elem_of_cons in Hk as [Hk|Hk]; [by subst | exact Hk].
Qed.

Lemma odict_set_tabulate g L k v :
  NoDup L -> k ∈ L ->
  odict_set (tabulate g L) k v
  = tabulate (fun k' => if decide (k' = k) then v else g k') L.
Proof.
  induction 1 as [|k' L Hk' HL IH]; intros Hk; [by apply elem_of_nil in Hk|].
  simpl. destruct (decide (k' = k)) as [->|Hne].
  - f_equal. apply tabulate_ext. intros k0 Hk0.
    destruct (decide (k0 = k)); [by subst|reflexivity].
  - f_equal. apply IH. apply elem_of_cons in Hk as [Hk|Hk]; [by subst | exact Hk].
Qed.
End OrderedDictProperties.

(** ** First occurrences and counts *)

Section Counting.
Context {K : Type} `{EqDecision K}.
Implicit Types (X : list K) (k x : K).

Lemma first_seen_elem X k : k ∈ first_seen X <-> k ∈ X.
Proof.
  induction X as [|x X IH]; [done|]. cbn [first_seen].
  rewrite !elem_of_cons, list_elem_of_filter, IH.
  destruct (decide (k = x)); intuition congruence.
Qed.

Lemma first_seen_NoDup X : NoDup (first_seen X).
Proof.
  induction X as [|x X IH]; [constructor|]. cbn [first_seen]. constructor.
  - rewrite list_elem_of_filter. intros [Hne _]. by apply Hne.
  - by apply NoDup_filter.
Qed.

Lemma first_seen_snoc X x :
  first_seen (X ++ [x]) = if decide (x ∈ X) then first_seen X else first_seen X ++ [x].
Proof.
  induction X as [|y X IH]; [reflexivity|].
  cbn [app first_seen]. rewrite IH.
  destruct (decide (x ∈ X)) as [Hin|Hin];
    destruct (decide (x ∈ y :: X)) as [Hin'|Hin'].
  - reflexivity.
  - exfalso. apply Hin'. by apply list_elem_of_further.
  - apply elem_of_cons in Hin' as [->|]; [|done].
    rewrite filter_app, filter_cons_False, filter_nil, app_nil_r; [reflexivity|].
    intros Hy. by apply Hy.
  - apply not_elem_of_cons in Hin' as [Hne _].
    rewrite filter_app, filter_cons_True, filter_nil by done. reflexivity.
Qed.

Lemma occurrences_snoc X x k :
  occurrences k (X ++ [x]) = occurrences k X + (if decide (x = k) then 1 else 0).
Proof.
  unfold occurrences. rewrite filter_app, length_app. f_equal.
  destruct (decide (x = k)).
  - by rewrite filter_cons_True.
  - by rewrite filter_cons_False.
Qed.

Lemma occurrences_absent X k : k ∉ X -> occurrences k X = 0.
Proof.
  unfold occurrences. induction X as [|x X IH]; intros Hk; [reflexivity|].
  apply not_elem_of_cons in Hk as [Hne Hk].
  rewrite filter_cons_False by congruence. by apply IH.
Qed.


(** The counts of the distinct values add up to the length. *)
Lemma sum_filter_ne (f : K -> nat) (L : list K) x :
  NoDup L ->
  sum_list (map f L)
  = (if decide (x ∈ L) then f x else 0) + sum_list (map f (filter (fun y => y ≠ x) L)).
Proof.
  induction 1 as [|y L Hy HL IH]; [reflexivity|].
  destruct (decide (y = x)) as [->|Hne].
  - rewrite filter_cons_False by (intros Hx; by apply Hx).
    rewrite decide_True by apply list_elem_of_here.
    rewrite decide_False in IH by done. simpl. rewrite IH. reflexivity.
  - rewrite filter_cons_True by done. simpl. rewrite IH.
    destruct (decide (x ∈ L)) as [Hin|Hin];
      destruct (decide (x ∈ y :: L)) as [Hin'|Hin']; try lia.
    + exfalso. apply Hin'. by apply list_elem_of_further.
    + apply elem_of_cons in Hin' as [->|]; done.
Qed.

Lemma occurrences_sum X :
  sum_list (map (fun k => occurrences k X) (first_seen X)) = length X.
Proof.
  induction X as [|x X IH]; [reflexivity|].
  cbn [first_seen map sum_list length].
  assert (occurrences x (x :: X) = S (occurrences x X)) as ->.
  { unfold occurrences. by rewrite filter_cons_True. }
  rewrite <- IH, (sum_filter_ne _ (first_seen X) x (first_seen_NoDup X)).
  assert ((if decide (x ∈ first_seen X) then occurrences x X else 0)
          = occurrences x X) as ->.
  { destruct (decide (x ∈ first_seen X)) as [|Hn]; [reflexivity|].
    symmetry. apply occurrences_absent. by rewrite <- first_seen_elem. }
  simpl. do 3 f_equal. apply map_ext_in. intros k Hk.
  apply list_elem_of_In, list_elem_of_filter in Hk as [Hne _].
  unfold occurrences. by rewrite filter_cons_False.
Qed.
End Counting.

(** ** The categorical plotter *)

Section CategoricalProperties.
Context {K : Type} `{EqDecision K} {num : Type}.
Variables (zero : num) (add : num -> num -> num) (recip : nat -> num).
Implicit Types (X : list K).

Lemma accumulate_S (n : nat) (acc x : num) :
  accumulate add (S n) acc x = add (accumulate add n acc x) x.
Proof. revert acc. induction n as [|n IH]; intros acc; [reflexivity|]. apply IH. Qed.

(** The dictionary after a prefix [X] of a sequence of length [n]: the
    distinct values in the order they were first seen, each with
    [recip n] added to [zero] once per occurrence. *)
Lemma count_values_tabulate (n : nat) X :
  fold_left (count_value zero add recip n) X []
  = tabulate (fun k => accumulate add (occurrences k X) zero (recip n)) (first_seen X).
Proof.
  induction X as [|x X IH] using rev_ind; [reflexivity|].
  rewrite fold_left_app, IH. cbn [fold_left]. clear IH.
  unfold count_value, odict_contains. rewrite tabulate_keys, first_seen_snoc.
  destruct (decide (x ∈ X)) as [Hin|Hin].
  - rewrite bool_decide_eq_true_2 by (by apply first_seen_elem).
    rewrite odict_get_tabulate by (by apply first_seen_elem).
    rewrite odict_set_tabulate
      by (by apply first_seen_NoDup || by apply first_seen_elem).
    apply tabulate_ext. intros k _. rewrite occurrences_snoc.
    destruct (decide (k = x)) as [->|Hne].
    + rewrite decide_True by done. rewrite Nat.add_1_r, accumulate_S. reflexivity.
    + rewrite decide_False by congruence. by rewrite Nat.add_0_r.
  - rewrite bool_decide_eq_false_2 by (by rewrite first_seen_elem).
    rewrite odict_get_set, odict_set_set.
    rewrite odict_set_fresh by (by rewrite tabulate_keys, first_seen_elem).
    unfold tabulate. rewrite map_app. f_equal.
    + apply map_ext_in. intros k Hk. rewrite occurrences_snoc.
      rewrite decide_False; [by rewrite Nat.add_0_r|].
      intros ->. apply Hin. by apply first_seen_elem, list_elem_of_In.
    + simpl. rewrite occurrences_snoc, decide_True by done.
      by rewrite (occurrences_absent X x Hin).
Qed.

Lemma frequency_map_tabulate X :
  frequency_map zero add recip X
  = tabulate (fun k => accumulate add (occurrences k X) zero (recip (length X)))
      (first_seen X).
Proof. apply count_values_tabulate. Qed.
End CategoricalProperties.

(** In exact arithmetic, adding [1 / n] to zero [c] times gives [c / n]. *)
Lemma accumulate_exact (c n : nat) :
  (accumulate Qplus c 0 (exact_recip n) == inject_Z (Z.of_nat c) / inject_Z (Z.of_nat n))%Q.
Proof.
  induction c as [|c IH].
  - simpl. unfold Qdiv. by rewrite Qmult_0_l.
  - rewrite accumulate_S, IH. unfold exact_recip.
    rewrite Nat2Z.inj_succ, <- Z.add_1_r, inject_Z_plus. unfold Qdiv. ring.
Qed.

Lemma Qsum_scaled (r : Q) {K : Type} (g : K -> nat) (L : list K) :
  (Qsum (map (fun k => inject_Z (Z.of_nat (g k)) * r) L)
   == inject_Z (Z.of_nat (sum_list (map g L))) * r)%Q.
Proof.
  induction L as [|k L IH]; simpl.
  - by rewrite Qmult_0_l.
  - rewrite IH, Nat2Z.inj_add, inject_Z_plus. ring.
Qed.

Lemma Qsum_pointwise {K : Type} (f g : K -> Q) (L : list K) :
  (forall k, f k == g k)%Q -> (Qsum (map f L) == Qsum (map g L))%Q.
Proof.
  intros Hfg. induction L as [|k L IH]; simpl; [reflexivity|].
  by rewrite IH, Hfg.
Qed.

Lemma tabulate_values {K A : Type} (g : K -> A) (L : list K) :
  odict_values (tabulate g L) = map g L.
Proof.
  unfold odict_values, tabulate.
  induction L as [|k L IH]; simpl; [reflexivity | f_equal; exact IH].
Qed.

Lemma tabulate_elem {K A : Type} (g : K -> A) (L : list K) (k : K) (v : A) :
  (k, v) ∈ tabulate g L -> v = g k.
Proof.
  unfold tabulate. intros Hin. apply list_elem_of_In, in_map_iff in Hin as (k' & Heq & _).
  by injection Heq as -> ->.
Qed.

Section CategoricalTheorems.
Context {K : Type} `{EqDecision K}.

(** C6 (amended): for every non-empty sequence [X], the keys of the
    frequency map are the distinct values of [X] in first-seen order,
    and the value of a key is [1.0 / len(X)] added to zero once per
    occurrence of the key, in binary64 arithmetic. In exact arithmetic
    that sum is the number of occurrences divided by the length, and the
    values add up to 1. On [[a, a, b]] the binary64 map is
    [{a: 2/3, b: 1/3}]. *)
Theorem frequency_map_counts (X : list K) :
  X <> [] ->
  float_frequency_map X
  = tabulate (fun k => accumulate PrimFloat.add (occurrences k X) PrimFloat.zero
                         (float_recip (length X))) (first_seen X)
  /\ (float_frequency_map X).*1 = first_seen X
  /\ (exact_frequency_map X).*1 = first_seen X
  /\ (forall k v, (k, v) ∈ exact_frequency_map X ->
        v == inject_Z (Z.of_nat (occurrences k X)) / inject_Z (Z.of_nat (length X)))%Q
  /\ (Qsum (odict_values (exact_frequency_map X)) == 1)%Q
  /\ (forall a b, a <> b -> X = [a; a; b] ->
        float_frequency_map X
        = [(a, PrimFloat.div 2 3); (b, PrimFloat.div 1 3)]).
Proof.
  intros Hne. unfold float_frequency_map, exact_frequency_map.
  rewrite !frequency_map_tabulate, !tabulate_keys.
  split; [reflexivity|]. split; [reflexivity|]. split; [reflexivity|].
  split; [|split].
  - intros k v Hin. apply tabulate_elem in Hin as ->. apply accumulate_exact.
  - rewrite tabulate_values.
    rewrite (Qsum_pointwise _
      (fun k => inject_Z (Z.of_nat (occurrences k X))
                * / inject_Z (Z.of_nat (length X)))%Q)
      by (intros k; apply accumulate_exact).
    rewrite Qsum_scaled, occurrences_sum. apply Qmult_inv_r.
    destruct X as [|x X']; [congruence|]. discriminate.
  - intros a b Hab ->. cbn [first_seen]. unfold tabulate, occurrences.
    repeat first
      [ progress (rewrite ?filter_cons, ?filter_nil)
      | progress cbn [map]
      | match goal with
        | |- context [decide ?P] =>
            destruct (decide P); try (exfalso; first [congruence | tauto])
        end ].
    cbn [length]. repeat f_equal; vm_compute; reflexivity.
Qed.
End CategoricalTheorems.

(** ** The numeric plotter *)

Section NumericProperties.
Context {V : Type}.
Variable lib : numeric_library V.
Implicit Types (h : numerical) (data : list (string * samples V)).

Lemma lines_lookup (index : nat) :
  index < 3 -> exists colour, lines !! index = Some colour.
Proof. intros H. apply lookup_lt_is_Some_2. simpl. lia. Qed.

(** With room in the palette, every strategy is drawn on both subplots
    in the colour of its position. *)
Lemma plot_strategies_drawn h data : forall index,
  estimable lib h data -> index + length data <= 3 ->
  exists cmds, plot_strategies lib h index data = Ok cmds /\
    legend_axes cmds = [] /\ saved_files cmds = [] /\
    labelled_series 0 cmds = zip data.*1 (map (fun c => c +:+ "-") (drop index lines)) /\
    labelled_series 1 cmds = zip data.*1 (drop index lines).
Proof.
  induction data as [|[sname values] data IH]; intros index Hest Hlen.
  - exists []. by repeat split.
  - apply Forall_cons in Hest as [[(dist & density & Hkde & Hpdf) [arr Harr]] Hest].
    cbn [length] in Hlen. cbn [snd] in *.
    destruct (lines_lookup index ltac:(lia)) as [colour Hc].
    destruct (IH (S index) Hest ltac:(lia)) as (cmds & Hcmds & Hleg & Hsav & H0 & H1).
    cbn [plot_strategies plot_strategy]. rewrite Hkde. cbn [bind].
    rewrite Hpdf. cbn [bind]. unfold py_index. rewrite Hc, Harr. cbn [bind].
    rewrite Hcmds. cbn [bind]. eexists. split; [reflexivity|].
    rewrite (drop_S _ _ _ Hc).
    unfold legend_axes, labelled_series, saved_files in *.
    cbn [app omap list_omap fmap list_fmap fst map zip zip_with].
    rewrite Hleg, Hsav, H0, H1. by repeat split.
Qed.

(** Past the palette the colour lookup raises. *)
Lemma plot_strategies_overflow h data : forall index,
  estimable lib h data -> data <> [] -> 3 < index + length data ->
  plot_strategies lib h index data = Raise IndexError.
Proof.
  induction data as [|[sname values] data IH]; intros index Hest Hne Hlen; [done|].
  apply Forall_cons in Hest as [[(dist & density & Hkde & Hpdf) [arr Harr]] Hest].
  cbn [length] in Hlen. cbn [snd] in *.
  cbn [plot_strategies plot_strategy]. rewrite Hkde. cbn [bind].
  rewrite Hpdf. cbn [bind]. unfold py_index.
  destruct (decide (index < 3)) as [Hi|Hi].
  - destruct (lines_lookup index Hi) as [colour Hc]. rewrite Hc, Harr. cbn [bind].
    rewrite IH; [reflexivity|exact Hest| |lia].
    intros ->. simpl in Hlen. lia.
  - rewrite (lookup_ge_None_2 lines index) by (simpl; lia). reflexivity.
Qed.

Lemma plot_strategies_room h data : forall index cmds,
  plot_strategies lib h index data = Ok cmds -> data = [] \/ index + length data <= 3.
Proof.
  induction data as [|[sname values] data IH]; intros index cmds Hok; [by left|].
  right. cbn [plot_strategies plot_strategy] in Hok.
  apply bind_Ok in Hok as (c1 & Hc1 & Hok).
  apply bind_Ok in Hc1 as (dist & _ & Hc1).
  apply bind_Ok in Hc1 as (density & _ & Hc1).
  apply bind_Ok in Hc1 as (colour & Hcol & _).
  apply bind_Ok in Hok as (c2 & Hc2 & _).
  unfold py_index in Hcol. destruct (lines !! index) eqn:Hl; [|discriminate].
  apply lookup_lt_Some in Hl. simpl in Hl.
  destruct (IH _ _ Hc2) as [->|Hle]; simpl; lia.
Qed.

Lemma plot_data_points_drawn data :
  legend_axes (plot_data_points lib data) = [] /\
  saved_files (plot_data_points lib data) = [] /\
  forall ax, labelled_series ax (plot_data_points lib data) = [].
Proof.
  unfold plot_data_points.
  destruct (odict_get data "gaussian_kde") as [values|]; by repeat split.
Qed.

(** What a call of the plotter that has room in the palette draws. *)
Lemma plot_numeric_drawn h data output_dir parameter_name :
  estimable lib h data -> length data <= 3 ->
  exists cmds, plot_numeric lib h data output_dir parameter_name = Ok cmds /\
    legend_axes cmds = [1] /\
    saved_files cmds = [output_dir +:+ parameter_name +:+ ".png"] /\
    labelled_series 0 cmds = zip data.*1 (map (fun c => c +:+ "-") lines) /\
    labelled_series 1 cmds = zip data.*1 lines.
Proof.
  intros Hest Hlen.
  destruct (plot_strategies_drawn h data 0 Hest ltac:(lia))
    as (curves & Hcurves & Hleg & Hsav & H0 & H1).
  destruct (plot_data_points_drawn data) as (Hleg' & Hsav' & Hp).
  unfold plot_numeric. rewrite Hcurves. cbn [bind].
  eexists. split; [reflexivity|].
  unfold legend_axes, labelled_series, saved_files in *.
  rewrite !omap_app, ?Hleg, ?Hleg', ?Hsav, ?Hsav', ?H0, ?H1, !Hp.
  destruct (log h); simpl; rewrite ?app_nil_r; by repeat split.
Qed.
End NumericProperties.

Section NumericTheorems.
Context {V : Type}.
Variable lib : numeric_library V.
Implicit Types (h : numerical) (data : list (string * samples V)).

Lemma plot_strategies_estimable h data : forall index cmds,
  plot_strategies lib h index data = Ok cmds -> estimable lib h data.
Proof.
  induction data as [|[sname values] data IH]; intros index cmds Hok; [constructor|].
  cbn [plot_strategies plot_strategy] in Hok.
  apply bind_Ok in Hok as (c1 & Hc1 & Hok).
  apply bind_Ok in Hc1 as (dist & Hkde & Hc1).
  apply bind_Ok in Hc1 as (density & Hpdf & Hc1).
  apply bind_Ok in Hc1 as (colour & _ & Hc1).
  apply bind_Ok in Hc1 as (arr & Harr & _).
  apply bind_Ok in Hok as (c2 & Hc2 & _).
  constructor; [|by eapply IH]. split; [by exists dist, density | by exists arr].
Qed.

Lemma plot_numeric_completes h data output_dir parameter_name cmds :
  plot_numeric lib h data output_dir parameter_name = Ok cmds ->
  estimable lib h data /\ length data <= 3.
Proof.
  unfold plot_numeric. intros Hok. apply bind_Ok in Hok as (curves & Hcurves & _).
  split; [by eapply plot_strategies_estimable|].
  destruct (plot_strategies_room lib h data 0 curves Hcurves) as [->|Hle];
    simpl in *; lia.
Qed.

(** C3 (amended): strategies are drawn in the iteration order of the
    mapping with the palette red, blue, green: when the mapping has at
    most three strategies (and the library calls succeed) the strategy
    at position [i] gets the colour at position [i] on both subplots;
    with more than three strategies the colour lookup for the fourth
    raises [IndexError] and the call does not complete. *)
Theorem plot_numeric_palette h data output_dir parameter_name :
  estimable lib h data ->
  (length data <= 3 ->
     exists cmds, plot_numeric lib h data output_dir parameter_name = Ok cmds /\
       labelled_series 0 cmds = zip data.*1 ["r-"; "b-"; "g-"] /\
       labelled_series 1 cmds = zip data.*1 ["r"; "b"; "g"]) /\
  (3 < length data ->
     plot_numeric lib h data output_dir parameter_name = Raise IndexError).
Proof.
  intros Hest. split; intros Hlen.
  - destruct (plot_numeric_drawn lib h data output_dir parameter_name Hest Hlen)
      as (cmds & Hcmds & _ & _ & H0 & H1).
    exists cmds. by repeat split.
  - unfold plot_numeric. rewrite plot_strategies_overflow; [reflexivity|exact Hest| |lia].
    intros ->. simpl in Hlen. lia.
Qed.

(** C4 (amended): a call of [plot_numeric] that completes attaches one
    legend, to the bottom subplot (the empirical distribution
    functions), and none to the top subplot (the densities); each
    subplot has one labelled series per strategy, in the order of the
    mapping. The call completes when the library calls succeed and
    there are at most three strategies. *)
Theorem plot_numeric_legend h data output_dir parameter_name :
  (estimable lib h data -> length data <= 3 ->
     exists cmds, plot_numeric lib h data output_dir parameter_name = Ok cmds) /\
  (forall cmds,
     plot_numeric lib h data output_dir parameter_name = Ok cmds ->
     legend_axes cmds = [1] /\
     (labelled_series 0 cmds).*1 = data.*1 /\
     (labelled_series 1 cmds).*1 = data.*1).
Proof.
  split.
  - intros Hest Hlen.
    destruct (plot_numeric_drawn lib h data output_dir parameter_name Hest Hlen)
      as (cmds & Hcmds & _). by exists cmds.
  - intros cmds Hok.
    destruct (plot_numeric_completes _ _ _ _ _ Hok) as [Hest Hlen].
    destruct (plot_numeric_drawn lib h data output_dir parameter_name Hest Hlen)
      as (cmds' & Hcmds & Hleg & _ & H0 & H1).
    rewrite Hok in Hcmds. injection Hcmds as <-.
    rewrite H0, H1. split; [exact Hleg|].
    split; apply fst_zip; rewrite ?length_map, ?length_fmap; simpl; lia.
Qed.
End NumericTheorems.

(** ** The plotting range *)

Lemma float_ltb_irrefl (x : float) : PrimFloat.ltb x x = false.
Proof.
  rewrite ltb_spec. unfold SFltb, SFcompare.
  destruct (Prim2SF x) as [s| s | | s m e]; try reflexivity.
  - by destruct s.
  - destruct s; rewrite Z.compare_refl, ?Pos.compare_cont_refl; reflexivity.
Qed.

Lemma float_ltb_asym (x y : float) :
  PrimFloat.ltb x y = true -> PrimFloat.ltb y x = false.
Proof.
  rewrite !ltb_spec. unfold SFltb, SFcompare.
  destruct (Prim2SF x) as [s1|s1| |s1 m1 e1], (Prim2SF y) as [s2|s2| |s2 m2 e2];
    try discriminate; try (by destruct s1); try (by destruct s2);
    try (by destruct s1, s2).
  destruct s1, s2; try discriminate; try reflexivity.
  all: rewrite (Z.compare_antisym e1 e2); destruct (e1 ?= e2)%Z; cbn [CompOpp];
    try discriminate; try reflexivity.
  all: pose proof (Pos.compare_cont_antisym m1 m2 Eq) as Ha; cbn [CompOpp] in Ha;
    rewrite <- Ha;
    destruct (Pos.compare_cont Eq m1 m2); cbn [CompOpp]; try discriminate; reflexivity.
Qed.

(** The product of a binary64 value and 1.0 is the value: the mantissa
    comes back from the rounding as it went in. *)
Lemma SFmul_one_r (x : spec_float) :
  valid_binary x = true ->
  SFmul prec emax x (S754_finite false 4503599627370496 (-52)) = x.
Proof.
  destruct x as [s|s| |s m e]; cbn [SFmul]; intros Hv; rewrite ?xorb_false_r;
    try reflexivity.
  unfold SpecFloat.valid_binary, bounded, canonical_mantissa in Hv.
  apply andb_prop in Hv as [Hc He]. apply Z.eqb_eq in Hc.
  unfold binary_round_aux, shr_fexp.
  rewrite Pos.mul_comm.
  replace (4503599627370496 * m)%positive with (Pos.iter xO m 52) by reflexivity.
  cbv [Pos.iter]. cbn [Zdigits2 digits2_pos].
  match goal with
  | |- context [(fexp prec emax ?a - ?b)%Z] =>
      replace (fexp prec emax a - b)%Z with 52%Z
  end.
  2: { match goal with
       | |- context [fexp prec emax ?a] =>
           replace a with (Z.pos (digits2_pos m) + e)%Z
             by (rewrite !Pos2Z.inj_succ; lia)
       end.
       rewrite Hc. lia. }
  cbn [shr shr_record_of_loc SpecFloat.iter_pos shr_1 orb shr_m shr_r shr_s
       loc_of_shr_record round_nearest_even].
  replace (e + -52 + 52)%Z with e by lia.
  cbn [Zdigits2]. rewrite Hc, Z.sub_diag. cbn [shr shr_m]. by rewrite He.
Qed.

Lemma float_mul_one_r (x : float) : PrimFloat.mul x 1 = x.
Proof.
  apply Prim2SF_inj. rewrite mul_spec.
  change (Prim2SF 1) with (S754_finite false 4503599627370496 (-52)).
  apply SFmul_one_r, Prim2SF_valid.
Qed.

Lemma np_linspace_length (start stop : float) (num : nat) :
  length (np_linspace start stop num) = num.
Proof.
  unfold np_linspace.
  destruct (decide (1 < num)%nat); [destruct (PrimFloat.eqb _ _)|];
    rewrite ?length_insert, !length_map, length_seq; reflexivity.
Qed.

(** The last sample is [stop] itself, not a sum. *)
Lemma np_linspace_last (start stop : float) (num : nat) :
  1 < num -> np_linspace start stop num !! (num - 1) = Some stop.
Proof.
  intros Hnum. unfold np_linspace. destruct (decide (1 < num)) as [_|Hn]; [|done].
  apply list_lookup_insert_eq.
  destruct (PrimFloat.eqb _ _); rewrite !length_map, length_seq; lia.
Qed.

(** The samples before the last: a product and a sum, each rounded. *)
Lemma np_linspace_lookup (start stop : float) (num i : nat) :
  i < num - 1 ->
  np_linspace start stop num !! i
  = Some (let delta := PrimFloat.sub stop start in
          let step := PrimFloat.div delta (float_of_nat (num - 1)) in
          PrimFloat.add
            (if PrimFloat.eqb step 0
             then PrimFloat.mul (PrimFloat.div (float_of_nat i) (float_of_nat (num - 1)))
                    delta
             else PrimFloat.mul (float_of_nat i) step)
            start).
Proof.
  intros Hi. unfold np_linspace. destruct (decide (1 < num)) as [_|Hn]; [|lia].
  rewrite list_lookup_insert_ne by lia.
  change (map ?f ?l) with (f <$> l).
  destruct (PrimFloat.eqb _ _);
    change (map ?f ?l) with (f <$> l);
    rewrite !list_lookup_fmap, lookup_seq_lt by lia; reflexivity.
Qed.

(** The first of 1000 samples compares equal to [start] when [start] and
    the step are numbers: it is [0 * step + start]. *)
Lemma np_linspace_first (start stop : float) :
  finite_float start = true ->
  finite_float (PrimFloat.div (PrimFloat.sub stop start) (float_of_nat 999)) = true ->
  exists x0, np_linspace start stop 1000 !! 0 = Some x0 /\ PrimFloat.eqb x0 start = true.
Proof.
  intros Hstart Hstep. rewrite np_linspace_lookup by lia.
  eexists. split; [reflexivity|]. cbv zeta.
  change (1000 - 1) with 999.
  set (delta := PrimFloat.sub stop start) in *.
  set (step := PrimFloat.div delta (float_of_nat 999)) in *.
  assert (Prim2SF (float_of_nat 0) = S754_zero false) as H0 by reflexivity.
  assert (exists m e, Prim2SF (float_of_nat 999) = S754_finite false m e) as (m9 & e9 & H9).
  { eexists _, _. vm_compute. reflexivity. }
  assert (exists s,
            Prim2SF (if PrimFloat.eqb step 0
                     then PrimFloat.mul
                            (PrimFloat.div (float_of_nat 0) (float_of_nat 999)) delta
                     else PrimFloat.mul (float_of_nat 0) step) = S754_zero s) as [s Hz].
  { unfold finite_float in Hstep. destruct (PrimFloat.eqb step 0).
    - subst step. rewrite div_spec, H9 in Hstep.
      rewrite mul_spec, div_spec, H0, H9.
      destruct (Prim2SF delta) as [sd|sd| |sd md ed]; try discriminate Hstep; by eexists.
    - rewrite mul_spec, H0.
      destruct (Prim2SF step) as [sd|sd| |sd md ed]; try discriminate Hstep; by eexists. }
  rewrite FloatAxioms.eqb_spec, add_spec, Hz. unfold finite_float in Hstart.
  destruct (Prim2SF start) as [ss|ss| |ss ms es]; try discriminate Hstart.
  - by destruct s, ss.
  - unfold SF64add, SFadd, SFeqb, SFcompare.
    destruct ss; rewrite Z.compare_refl, ?Pos.compare_cont_refl; reflexivity.
Qed.

Section FigureProperties.
Context {V : Type}.
Variable lib : numeric_library V.
Implicit Types (h : numerical) (data : list (string * samples V)).

Lemma rank_fractions_lookup (n j : nat) (y : float) :
  rank_fractions n !! j = Some y ->
  j < n /\ y = PrimFloat.div (float_of_nat (S j)) (float_of_nat n).
Proof.
  unfold rank_fractions. change (map ?f ?l) with (f <$> l).
  rewrite list_lookup_fmap. destruct (seq 1 n !! j) as [i|] eqn:Hi; [|discriminate].
  apply lookup_seq in Hi as [-> Hj]. intros [= <-]. by split.
Qed.

Lemma plot_numeric_shape h data output_dir parameter_name cmds :
  plot_numeric lib h data output_dir parameter_name = Ok cmds ->
  exists curves,
    plot_strategies lib h 0 data = Ok curves /\
    cmds = [Makedirs output_dir; Subplots 2 true] ++ curves ++ plot_data_points lib data
           ++ [Legend 1 "upper left"; SetXlim 0 (range_min lib h) (range_max lib h)]
           ++ (if log h then [Xscale "log"] else [])
           ++ [Savefig (output_dir +:+ parameter_name +:+ ".png"); Close].
Proof.
  unfold plot_numeric. intros Hok.
  apply bind_Ok in Hok as (curves & Hcurves & Hok). injection Hok as <-.
  by exists curves.
Qed.

(** What the loop over the strategies draws, and what it leaves alone. *)
Lemma plot_strategies_frame h data : forall index cmds,
  plot_strategies lib h index data = Ok cmds ->
  Forall2 (drawn_as lib) data (step_functions cmds) /\
  curve_grids cmds = replicate (length data) (X_values_plot lib h) /\
  subplot_grids cmds = [] /\ xlims cmds = [] /\ point_clouds cmds = [].
Proof.
  induction data as [|[sname values] data IH]; intros index cmds Hok.
  - injection Hok as <-. by repeat split.
  - cbn [plot_strategies plot_strategy] in Hok.
    apply bind_Ok in Hok as (c1 & Hc1 & Hok).
    apply bind_Ok in Hc1 as (dist & _ & Hc1).
    apply bind_Ok in Hc1 as (density & _ & Hc1).
    apply bind_Ok in Hc1 as (colour & _ & Hc1).
    apply bind_Ok in Hc1 as (arr & Harr & Hc1).
    apply bind_Ok in Hc1 as (colour' & _ & Hc1). injection Hc1 as <-.
    apply bind_Ok in Hok as (c2 & Hc2 & Hok). injection Hok as <-.
    destruct (IH _ _ Hc2) as (Hsteps & Hg & Hsub & Hx & Hp).
    unfold step_functions, curve_grids, subplot_grids, xlims, point_clouds in *.
    cbn [app omap list_omap length replicate]. rewrite Hg, Hsub, Hx, Hp.
    split; [|by repeat split].
    constructor; [|exact Hsteps]. split; [reflexivity|]. exists arr. cbn [fst snd].
    split; [exact Harr|]. split; [reflexivity|]. split.
    + unfold rank_fractions. by rewrite length_map, length_seq.
    + intros j y Hy. by apply rank_fractions_lookup in Hy as [_ ->].
Qed.

Lemma plot_data_points_frame data :
  step_functions (plot_data_points lib data) = [] /\
  curve_grids (plot_data_points lib data) = [] /\
  subplot_grids (plot_data_points lib data) = [] /\
  xlims (plot_data_points lib data) = [] /\
  point_clouds (plot_data_points lib data)
  = match odict_get data "gaussian_kde" with
    | Some values => [(values, "+k")]
    | None => []
    end.
Proof.
  unfold plot_data_points. destruct (odict_get data "gaussian_kde") as [values|];
    by repeat split.
Qed.

(** What a completed call draws besides the legend. *)
Lemma plot_numeric_frame h data output_dir parameter_name cmds :
  plot_numeric lib h data output_dir parameter_name = Ok cmds ->
  Forall2 (drawn_as lib) data (step_functions cmds) /\
  curve_grids cmds = replicate (length data) (X_values_plot lib h) /\
  subplot_grids cmds = [(2, true)] /\
  xlims cmds = [(0, range_min lib h, range_max lib h)] /\
  point_clouds cmds
  = match odict_get data "gaussian_kde" with
    | Some values => [(values, "+k")]
    | None => []
    end.
Proof.
  intros Hok.
  destruct (plot_numeric_shape _ _ _ _ _ Hok) as (curves & Hc & ->).
  destruct (plot_strategies_frame _ _ _ _ Hc) as (Hsteps & Hg & Hsub & Hx & Hpc).
  destruct (plot_data_points_frame data) as (Hsteps' & Hg' & Hsub' & Hx' & Hpc').
  unfold step_functions, curve_grids, subplot_grids, xlims, point_clouds in *.
  rewrite !omap_app, Hg, Hsub, Hx, Hpc, Hsteps', Hg', Hsub', Hx', Hpc'.
  destruct (log h); cbn [app omap list_omap]; rewrite ?app_nil_r; by repeat split.
Qed.

(** The upper end is the larger of the two candidates. *)
Lemma range_max_larger h :
  range_max lib h
  = (if PrimFloat.ltb (np_power lib (upper h) 1) (np_float64 (upper h))
     then np_float64 (upper h)
     else np_power lib (upper h) 1).
Proof.
  unfold range_max, computed_max, factor. change PrimFloat.one with 1%float.
  by rewrite float_mul_one_r.
Qed.

(** The safeguard of the upper end does not apply when [np.power] gives
    the bound back. *)
Lemma range_max_exact h :
  np_power lib (upper h) 1 = np_float64 (upper h) ->
  range_max lib h = np_float64 (upper h).
Proof.
  intros Hpow. unfold range_max, computed_max, factor.
  change PrimFloat.one with 1%float. by rewrite Hpow, float_ltb_irrefl.
Qed.
End FigureProperties.

Section RangeTheorems.
Context {V : Type}.
Variable lib : numeric_library V.

(** C7 (amended): the plotting range of a numeric hyperparameter comes
    from its declared bounds, in binary64: the lower end is
    [np.power(lower, 1.0)]; the upper end is the larger of
    [np.power(upper, 1.0)] and the declared upper bound as a [float64],
    one of the two and less than neither. The grid has exactly 1000
    points; the last is the upper end itself, the first compares equal
    to the lower end when that and the step are numbers, and the point
    at position [i] in between is [i * step + lower end] with
    [step = (upper end - lower end) / 999], the quotient, the product and
    the sum each rounded. A call that completes sets the limits of the
    x axis to the two ends and draws the density of every strategy over
    this grid. *)
Theorem plot_numeric_range (h : numerical) :
  range_min lib h = np_power lib (lower h) 1 /\
  range_max lib h
  = (if PrimFloat.ltb (np_power lib (upper h) 1) (np_float64 (upper h))
     then np_float64 (upper h)
     else np_power lib (upper h) 1) /\
  PrimFloat.ltb (range_max lib h) (np_float64 (upper h)) = false /\
  PrimFloat.ltb (range_max lib h) (np_power lib (upper h) 1) = false /\
  length (X_values_plot lib h) = 1000 /\
  X_values_plot lib h !! 999 = Some (range_max lib h) /\
  (finite_float (range_min lib h) = true ->
   finite_float (PrimFloat.div (PrimFloat.sub (range_max lib h) (range_min lib h))
                   (float_of_nat 999)) = true ->
   exists x0, X_values_plot lib h !! 0 = Some x0 /\
     PrimFloat.eqb x0 (range_min lib h) = true) /\
  (forall i, i < 999 ->
     let delta := PrimFloat.sub (range_max lib h) (range_min lib h) in
     let step := PrimFloat.div delta (float_of_nat 999) in
     X_values_plot lib h !! i
     = Some (PrimFloat.add
               (if PrimFloat.eqb step 0
                then PrimFloat.mul (PrimFloat.div (float_of_nat i) (float_of_nat 999)) delta
                else PrimFloat.mul (float_of_nat i) step)
               (range_min lib h))) /\
  (forall data output_dir parameter_name cmds,
     plot_numeric lib h data output_dir parameter_name = Ok cmds ->
     xlims cmds = [(0, range_min lib h, range_max lib h)] /\
     curve_grids cmds = replicate (length data) (X_values_plot lib h)).
Proof.
  split; [reflexivity|]. split; [apply range_max_larger|].
  split; [|split].
  - rewrite range_max_larger.
    destruct (PrimFloat.ltb (np_power lib (upper h) 1) (np_float64 (upper h))) eqn:Hlt;
      [apply float_ltb_irrefl | exact Hlt].
  - rewrite range_max_larger.
    destruct (PrimFloat.ltb (np_power lib (upper h) 1) (np_float64 (upper h))) eqn:Hlt;
      [by apply float_ltb_asym | apply float_ltb_irrefl].
  - split; [apply np_linspace_length|].
    split; [apply (np_linspace_last _ _ 1000); lia|].
    split; [apply np_linspace_first|].
    split.
    + intros i Hi. apply (np_linspace_lookup _ _ 1000 i). simpl. lia.
    + intros data output_dir parameter_name cmds Hok.
      destruct (plot_numeric_frame lib _ _ _ _ _ Hok) as (_ & Hg & _ & Hx & _).
      by split.
Qed.
End RangeTheorems.

(** ** The loop over the priors *)

Lemma py_all_true {A : Type} (p : A -> result bool) (l : list A) :
  (forall x, x ∈ l -> p x = Ok true) -> py_all p l = Ok true.
Proof.
  induction l as [|x l IH]; intros Hp; [reflexivity|]. cbn [py_all].
  rewrite (Hp x) by apply list_elem_of_here. cbn [bind].
  apply IH. intros y Hy. apply Hp. by apply list_elem_of_further.
Qed.

Section MainProperties.
Context {V : Type} `{EqDecision V} `{PyEq V}.
Variables (lib : numeric_library V) (ext : collaborators V).
Implicit Types (priors : list V) (hyperparameters : gmap string hyperparameter).
Implicit Types (obtained_results : list (string * gmap string (list V))).
Implicit Types (data : list (string * samples V)).

Lemma degenerate_nil : degenerate (V := V) [] = Ok true.
Proof. reflexivity. Qed.

Lemma py_all_forallb {A : Type} (p : A -> result bool) (f : A -> bool) (l : list A) :
  (forall x, x ∈ l -> p x = Ok (f x)) -> py_all p l = Ok (forallb f l).
Proof.
  induction l as [|x l IH]; intros Hp; [reflexivity|]. cbn [py_all forallb].
  rewrite (Hp x) by apply list_elem_of_here. cbn [bind].
  destruct (f x); [|reflexivity].
  apply IH. intros y Hy. apply Hp. by apply list_elem_of_further.
Qed.

(** On a list that has a first element the test is the conjunction of
    the comparisons with it. *)
Lemma degenerate_forallb first rest :
  degenerate (first :: rest) = Ok (forallb (fun x => py_eq x first) (first :: rest)).
Proof. unfold degenerate. by apply py_all_forallb. Qed.

Lemma degenerate_total priors : exists b, degenerate priors = Ok b.
Proof.
  destruct priors as [|first rest]; [by exists true|].
  eexists. apply degenerate_forallb.
Qed.

Lemma degenerate_all_equal priors first :
  priors !! 0 = Some first ->
  (forall x, x ∈ priors -> py_eq x first = true) -> degenerate priors = Ok true.
Proof.
  intros Hfirst Heq. destruct priors as [|x rest]; [discriminate|].
  injection Hfirst as ->. rewrite degenerate_forallb. f_equal.
  apply forallb_forall. intros x Hx. by apply Heq, list_elem_of_In.
Qed.

Lemma dispatch_degenerate hyperparameters out_dir obtained_results param_name priors :
  degenerate priors = Ok true ->
  dispatch lib hyperparameters out_dir obtained_results param_name priors
  = Ok (None, obtained_results).
Proof. intros Hd. unfold dispatch. rewrite Hd. reflexivity. Qed.

(** A degenerate entry of the priors can be taken out of the loop. *)
Lemma plot_parameters_degenerate hyperparameters out_dir param_name priors before :
  forall obtained_results after,
  degenerate priors = Ok true ->
  plot_parameters lib ext hyperparameters out_dir obtained_results
    (before ++ (param_name, priors) :: after)
  = plot_parameters lib ext hyperparameters out_dir obtained_results (before ++ after).
Proof.
  induction before as [|[n p] before IH]; intros obtained_results after Hd.
  - cbn [app plot_parameters]. rewrite (dispatch_degenerate _ _ _ _ _ Hd). cbn [bind].
    by destruct (plot_parameters lib ext hyperparameters out_dir obtained_results after).
  - cbn [app plot_parameters].
    destruct (dispatch lib hyperparameters out_dir obtained_results n p)
      as [[call obtained_results']|]; [|reflexivity].
    cbn [bind]. by rewrite IH.
Qed.

(** The figures are named after entries of the priors, in their order. *)
Lemma plot_parameters_names hyperparameters out_dir param_priors :
  forall obtained_results figs,
  plot_parameters lib ext hyperparameters out_dir obtained_results param_priors = Ok figs ->
  figs.*1 `sublist_of` param_priors.*1.
Proof.
  induction param_priors as [|[n p] param_priors IH]; intros obtained_results figs Hok.
  - injection Hok as <-. constructor.
  - cbn [plot_parameters] in Hok.
    apply bind_Ok in Hok as ([call obtained_results'] & _ & Hok).
    apply bind_Ok in Hok as (drawn & Hdrawn & Hok).
    apply bind_Ok in Hok as (figs' & Hfigs & Hok). injection Hok as <-.
    apply IH in Hfigs. rewrite fmap_app. cbn [fmap list_fmap fst].
    destruct call as [c|].
    + apply bind_Ok in Hdrawn as (fig & _ & Hdrawn). injection Hdrawn as <-.
      by apply sublist_skip.
    + injection Hdrawn as <-. by apply sublist_cons.
Qed.

(** The strategies do not touch the entries of [data] under other keys. *)
Lemma strategy_data_other param_name obtained_results : forall data data' st' s,
  strategy_data lib param_name obtained_results data = Ok (data', st') ->
  s ∉ obtained_results.*1 -> odict_get data' s = odict_get data s.
Proof.
  induction obtained_results as [|[strategy sampled] rest IH];
    intros data data' st' s Hok Hs.
  - by injection Hok as <- <-.
  - cbn [strategy_data] in Hok.
    destruct (defaultdict_getitem sampled param_name) as [values sampled'].
    apply bind_Ok in Hok as (arr & _ & Hok).
    apply bind_Ok in Hok as ([d r] & Hrec & Hok). injection Hok as <- <-.
    cbn [fmap list_fmap fst] in Hs. apply not_elem_of_cons in Hs as [Hne Hs].
    rewrite (IH _ _ _ _ Hrec Hs). by apply odict_get_set_ne.
Qed.

(** The data of a parameter: every strategy has the array of what its
    mapping holds under the parameter's name. *)
Lemma strategy_data_arrays param_name obtained_results : forall data,
  Forall (fun sd => exists arr,
            np_array_float64 lib (defaultdict_getitem sd.2 param_name).1 = Ok arr)
    obtained_results ->
  NoDup obtained_results.*1 ->
  exists data' st', strategy_data lib param_name obtained_results data = Ok (data', st') /\
    forall strategy sampled, (strategy, sampled) ∈ obtained_results ->
      exists arr,
        np_array_float64 lib (defaultdict_getitem sampled param_name).1 = Ok arr /\
        odict_get data' strategy = Some (Float64Array arr).
Proof.
  induction obtained_results as [|[strategy sampled] rest IH]; intros data Hconv Hnd.
  - exists data, []. split; [reflexivity|]. intros s d Hin. by apply elem_of_nil in Hin.
  - apply Forall_cons in Hconv as [[arr Harr] Hconv].
    cbn [fmap list_fmap fst] in Hnd. apply NoDup_cons in Hnd as [Hfresh Hnd].
    cbn [strategy_data snd] in *.
    destruct (defaultdict_getitem sampled param_name) as [values sampled'] eqn:Hget.
    cbn [fst] in Harr. rewrite Harr. cbn [bind].
    destruct (IH (odict_set data strategy (Float64Array arr)) Hconv Hnd)
      as (data' & st' & Hrec & Hall).
    rewrite Hrec. cbn [bind]. exists data', ((strategy, sampled') :: st').
    split; [reflexivity|]. intros s d Hin.
    apply elem_of_cons in Hin as [[= -> ->]|Hin]; [|by apply Hall].
    exists arr. rewrite Hget. split; [exact Harr|].
    rewrite (strategy_data_other _ _ _ _ _ _ Hrec Hfresh). apply odict_get_set.
Qed.
End MainProperties.

Section MainTheorems.
Context {V : Type} `{EqDecision V} `{PyEq V}.
Variables (fs : filesystem V) (lib : numeric_library V) (ext : collaborators V).
Implicit Types (priors : list V) (hyperparameters : gmap string hyperparameter).
Implicit Types (obtained_results : list (string * gmap string (list V))).

(** C2: a hyperparameter whose prior list is not empty and has all its
    elements equal, each comparing equal under [==] to the first as the
    test of the script has it, is skipped: its turn of the loop calls
    neither plotter and raises nothing, the loop goes on as if the entry
    were not among the priors, and no figure bears its name. *)
Theorem degenerate_priors_skipped hyperparameters out_dir param_name priors first :
  priors !! 0 = Some first ->
  (forall x, x ∈ priors -> py_eq x first = true) ->
  (forall obtained_results,
     dispatch lib hyperparameters out_dir obtained_results param_name priors
     = Ok (None, obtained_results)) /\
  (forall obtained_results before after,
     plot_parameters lib ext hyperparameters out_dir obtained_results
       (before ++ (param_name, priors) :: after)
     = plot_parameters lib ext hyperparameters out_dir obtained_results
         (before ++ after)) /\
  (forall obtained_results before after figs,
     NoDup (before ++ (param_name, priors) :: after).*1 ->
     plot_parameters lib ext hyperparameters out_dir obtained_results
       (before ++ (param_name, priors) :: after) = Ok figs ->
     param_name ∉ figs.*1).
Proof.
  intros Hfirst Heq. pose proof (degenerate_all_equal priors first Hfirst Heq) as Hd.
  split; [|split].
  - intros obtained_results. by apply dispatch_degenerate.
  - intros obtained_results before after. by apply plot_parameters_degenerate.
  - intros obtained_results before after figs Hnd Hok Hin.
    rewrite plot_parameters_degenerate in Hok by done.
    apply plot_parameters_names in Hok.
    pose proof (elem_of_sublist _ _ _ Hin Hok) as Hin'.
    rewrite fmap_app in Hnd, Hin'. cbn [fmap list_fmap fst] in Hnd.
    apply NoDup_app in Hnd as (_ & Hsep & Hnd').
    apply NoDup_cons in Hnd' as [Hafter _].
    apply elem_of_app in Hin' as [Hb|Ha]; [|done].
    apply (Hsep _ Hb). apply list_elem_of_here.
Qed.

(** C8: on an empty prior list the test [all(x == priors[0] ...)] is
    true without [priors[0]] being read: the turn of the loop calls no
    plotter and raises nothing, and the loop goes on as if the entry
    were not among the priors. *)
Theorem empty_priors_skipped hyperparameters out_dir param_name :
  degenerate (V := V) [] = Ok true /\
  py_index (A := V) [] 0 = Raise IndexError /\
  (forall obtained_results,
     dispatch lib hyperparameters out_dir obtained_results param_name []
     = Ok (None, obtained_results)) /\
  (forall obtained_results before after,
     plot_parameters lib ext hyperparameters out_dir obtained_results
       (before ++ (param_name, []) :: after)
     = plot_parameters lib ext hyperparameters out_dir obtained_results
         (before ++ after)).
Proof.
  split; [reflexivity|]. split; [reflexivity|]. split.
  - intros obtained_results. apply dispatch_degenerate, degenerate_nil.
  - intros obtained_results before after.
    apply plot_parameters_degenerate, degenerate_nil.
Qed.


(** C5: whatever the command line gives for [--bestN], the prior
    utility is asked for the best 10 configurations; the value of the
    command line only reaches the suffix of the output and result
    directories. With [--bestN 20] the request is for 10. *)
Theorem priors_call_bestN hyperparameters :
  (forall args, req_bestN (priors_call ext args hyperparameters) = 10%Z) /\
  (forall args,
     odict_get (important_parameters args) "bestN" = Some (JInt (bestN args))) /\
  bestN arguments_bestN_20 = 20%Z /\
  req_bestN (priors_call ext arguments_bestN_20 hyperparameters) = 10%Z.
Proof.
  split; [reflexivity|]. split; [|by split].
  intros args. unfold important_parameters. apply odict_get_set.
Qed.
End MainTheorems.

(** * The properties at the examples *)

Example split_two : split "parameter_classifier__n_estimators" "__"
  = ["parameter_classifier"; "n_estimators"].
Proof. reflexivity. Qed.

Example split_three_underscores : split "a___b" "__" = ["a"; "_b"].
Proof. reflexivity. Qed.

Example split_four_underscores : split "a____b" "__" = ["a"; ""; "b"].
Proof. reflexivity. Qed.

Example split_trailing : split "a__" "__" = ["a"; ""].
Proof. reflexivity. Qed.

Lemma occurs_contains (sep s : string) : occurs sep s -> contains sep s = true.
Proof.
  intros (p & q & ->). induction p as [|c p IH].
  - change ("" +:+ sep +:+ q) with (sep +:+ q).
    destruct (sep +:+ q) eqn:E; cbn [contains]; rewrite <- ?E, prefix_app; reflexivity.
  - change (String c p +:+ sep +:+ q) with (String c (p +:+ sep +:+ q)).
    cbn [contains]. rewrite IH. apply orb_true_r.
Qed.

Lemma legend_axes_elem {R N : Type} (cmds : list (command R N)) (ax : nat)
    (loc : string) :
  Legend ax loc ∈ cmds -> ax ∈ legend_axes cmds.
Proof.
  unfold legend_axes. intros Hin. apply list_elem_of_omap.
  exists (Legend ax loc). by split.
Qed.

Lemma scanned_example :
  scanned example_fs "results/adaboost/bestN_10/random_search" = Ok [table_a; table_b].
Proof. reflexivity. Qed.

Lemma rectangular_example : Forall rectangular [table_a; table_b].
Proof. repeat constructor. Qed.

Lemma estimable_two (h : numerical) : estimable example_library h two_strategies.
Proof. repeat constructor; simpl; eauto. Qed.

Lemma estimable_four : estimable example_library n_estimators four_strategies.
Proof. repeat constructor; simpl; eauto. Qed.

Lemma obtain_sampled_parameters_accumulates_witness :
  obtain_sampled_parameters example_fs "elsewhere" = Ok ∅ /\
  exists m,
    obtain_sampled_parameters example_fs "results/adaboost/bestN_10/random_search" = Ok m /\
    (defaultdict_getitem m "n_estimators").1 = [10; 20; 30]%Q /\
    (defaultdict_getitem m "learning_rate").1 = [1 # 2; 1 # 4]%Q /\
    (defaultdict_getitem m "setup_id").1 = [].
Proof.
  split.
  - apply (proj1 (obtain_sampled_parameters_accumulates example_fs "elsewhere")).
    reflexivity.
  - destruct (proj2 (obtain_sampled_parameters_accumulates example_fs
                       "results/adaboost/bestN_10/random_search")
                [table_a; table_b] scanned_example rectangular_example)
      as (m & Hm & Hcells & _).
    exists m. split; [exact Hm|]. rewrite !Hcells. repeat split.
Defined.

Lemma parameter_without_separator_key_witness :
  last_piece (split "parameter_alpha" "__") = "parameter_alpha" /\
  exists m,
    obtain_sampled_parameters example_fs "results/adaboost/bestN_10/random_search" = Ok m /\
    forall row v, row ∈ data table_a -> row !! 3 = Some v ->
      v ∈ (defaultdict_getitem m "parameter_alpha").1.
Proof.
  apply (parameter_without_separator_key example_fs
           "results/adaboost/bestN_10/random_search" [table_a; table_b] table_a 3
           "parameter_alpha" "NUMERIC").
  - exact scanned_example.
  - exact rectangular_example.
  - apply list_elem_of_here.
  - reflexivity.
  - reflexivity.
  - intros Hocc. apply occurs_contains in Hocc. discriminate Hocc.
Defined.

Lemma degenerate_priors_skipped_witness :
  dispatch example_library ∅ "pdf" [] "max_depth" [3; 3; 3]%Q = Ok (None, []) /\
  forall figs,
    plot_parameters example_library example_collaborators ∅ "pdf" []
      [("max_depth", [3; 3; 3]%Q)] = Ok figs -> "max_depth" ∉ figs.*1.
Proof.
  assert (forall x : Q, x ∈ [3; 3; 3]%Q -> py_eq x 3%Q = true) as Heq.
  { intros x Hx. rewrite !elem_of_cons, elem_of_nil in Hx.
    destruct Hx as [->|[->|[->|[]]]]; reflexivity. }
  destruct (degenerate_priors_skipped example_library example_collaborators ∅ "pdf"
              "max_depth" [3; 3; 3]%Q 3%Q eq_refl Heq) as (Hd & _ & Hfigs).
  split; [apply Hd|]. intros figs. apply (Hfigs [] [] []).
  apply NoDup_singleton.
Defined.

(** Equal numbers written differently are equal for the test, and NaN is
    not equal to itself: a prior of NaNs is not skipped. *)
Example degenerate_by_value :
  degenerate [1 # 2; 2 # 4]%Q = Ok true /\
  degenerate [PrimFloat.nan] = Ok false /\
  degenerate [PrimFloat.nan; PrimFloat.nan; PrimFloat.nan] = Ok false /\
  degenerate [PrimFloat.zero; PrimFloat.neg_zero] = Ok true.
Proof. by repeat split. Qed.

(** Four strategies: the colour lookup for the fourth raises. *)
Lemma plot_numeric_four_strategies :
  length four_strategies = 4 /\
  py_index lines 3 = Raise IndexError /\
  plot_numeric example_library n_estimators four_strategies "pdf/" "n_estimators"
  = Raise IndexError.
Proof.
  split; [reflexivity|]. split; [reflexivity|].
  unfold plot_numeric.
  rewrite (plot_strategies_overflow example_library n_estimators four_strategies 0
             estimable_four); [reflexivity|discriminate|simpl; lia].
Qed.

Lemma plot_numeric_palette_witness :
  (exists cmds,
     plot_numeric example_library n_estimators two_strategies "pdf/" "n_estimators"
     = Ok cmds /\
     labelled_series 0 cmds = [("gaussian_kde", "r-"); ("random_search", "b-")] /\
     labelled_series 1 cmds = [("gaussian_kde", "r"); ("random_search", "b")]) /\
  plot_numeric example_library n_estimators four_strategies "pdf/" "n_estimators"
  = Raise IndexError.
Proof.
  split.
  - apply (proj1 (plot_numeric_palette example_library n_estimators two_strategies
                    "pdf/" "n_estimators" (estimable_two _))).
    simpl. lia.
  - apply (proj2 (plot_numeric_palette example_library n_estimators four_strategies
                    "pdf/" "n_estimators" estimable_four)).
    simpl. lia.
Defined.

(** The end-to-end scenario: the figure of [n_estimators] has its legend
    on the bottom subplot and none on the top one. *)
Lemma plot_numeric_top_without_legend :
  exists cmds,
    plot_numeric example_library n_estimators two_strategies "pdf/adaboost/bestN_10/"
      "n_estimators" = Ok cmds /\
    legend_axes cmds = [1] /\
    ~ exists loc, Legend 0 loc ∈ cmds.
Proof.
  destruct (plot_numeric_drawn example_library n_estimators two_strategies
              "pdf/adaboost/bestN_10/" "n_estimators" (estimable_two _))
    as (cmds & Hcmds & Hleg & _); [simpl; lia|].
  exists cmds. split; [exact Hcmds|]. split; [exact Hleg|].
  intros [loc Hin]. apply legend_axes_elem in Hin. rewrite Hleg in Hin.
  apply list_elem_of_singleton in Hin. discriminate Hin.
Qed.

Lemma plot_numeric_legend_witness :
  exists cmds,
    plot_numeric example_library n_estimators two_strategies "pdf/adaboost/bestN_10/"
      "n_estimators" = Ok cmds /\
    legend_axes cmds = [1] /\
    (labelled_series 0 cmds).*1 = ["gaussian_kde"; "random_search"] /\
    (labelled_series 1 cmds).*1 = ["gaussian_kde"; "random_search"].
Proof.
  destruct (proj1 (plot_numeric_legend example_library n_estimators two_strategies
                     "pdf/adaboost/bestN_10/" "n_estimators") (estimable_two _))
    as [cmds Hcmds]; [simpl; lia|].
  exists cmds. split; [exact Hcmds|].
  exact (proj2 (plot_numeric_legend example_library n_estimators two_strategies
                  "pdf/adaboost/bestN_10/" "n_estimators") cmds Hcmds).
Defined.

Lemma plot_numeric_two_strategies (h : numerical) (output_dir parameter_name : string) :
  exists cmds,
    plot_numeric example_library h two_strategies output_dir parameter_name = Ok cmds.
Proof.
  destruct (plot_numeric_drawn example_library h two_strategies output_dir
              parameter_name (estimable_two h)) as (cmds & Hcmds & _); [simpl; lia|].
  by exists cmds.
Qed.

(** An integer bound that binary64 cannot hold, 2^53 + 1: the upper end
    of the range, and the limit of the x axis, is 2^53, below the
    declared bound. And the grid over [50, 500]: its first two gaps
    differ. *)
Lemma plot_numeric_range_rounds :
  (upper wide_range = PyInt 9007199254740993 /\
   float_value (range_max example_library wide_range) = Some 9007199254740992%Q /\
   (9007199254740992 < 9007199254740993)%Q /\
   exists cmds,
     plot_numeric example_library wide_range two_strategies "pdf/" "wide_range"
     = Ok cmds /\
     xlims cmds = [(0, 1%float, 9007199254740992%float)]) /\
  (lower n_estimators = PyInt 50 /\ upper n_estimators = PyInt 500 /\
   exists g0 g1,
     neighbour_gaps (X_values_plot example_library n_estimators) !! 0 = Some g0 /\
     neighbour_gaps (X_values_plot example_library n_estimators) !! 1 = Some g1 /\
     ~ (g0 == g1)%Q).
Proof.
  split.
  - split; [reflexivity|]. split; [vm_compute; reflexivity|]. split; [reflexivity|].
    destruct (plot_numeric_two_strategies wide_range "pdf/" "wide_range") as [cmds Hcmds].
    exists cmds. split; [exact Hcmds|].
    by destruct (plot_numeric_frame _ _ _ _ _ _ Hcmds) as (_ & _ & _ & -> & _).
  - split; [reflexivity|]. split; [reflexivity|].
    eexists _, _. split; [vm_compute; reflexivity|]. split; [vm_compute; reflexivity|].
    intros Heq. vm_compute in Heq. discriminate Heq.
Qed.

Lemma plot_numeric_range_witness :
  exists cmds,
    plot_numeric example_library n_estimators two_strategies "pdf/" "n_estimators"
    = Ok cmds /\
    xlims cmds = [(0, 50%float, 500%float)] /\
    curve_grids cmds = replicate 2 (X_values_plot example_library n_estimators).
Proof.
  destruct (plot_numeric_two_strategies n_estimators "pdf/" "n_estimators")
    as [cmds Hcmds].
  exists cmds. split; [exact Hcmds|].
  destruct (plot_numeric_range example_library n_estimators)
    as (_ & _ & _ & _ & _ & _ & _ & _ & Hcall).
  exact (Hcall two_strategies "pdf/" "n_estimators" cmds Hcmds).
Defined.

(** Six equal values: the frequency of the value, six times [1.0 / 6]
    added up, is below 1, which is what 6 / 6 and the sum of the
    probabilities should be. *)
Lemma float_frequency_map_rounds :
  exists v,
    float_frequency_map (replicate 6 "a") = [("a", v)] /\
    occurrences "a" (replicate 6 "a") = 6 /\
    PrimFloat.ltb v (PrimFloat.div (float_of_nat 6) (float_of_nat 6)) = true /\
    v <> PrimFloat.div (float_of_nat 6) (float_of_nat 6) /\
    v <> PrimFloat.one.
Proof.
  exists (accumulate PrimFloat.add 6 PrimFloat.zero (float_recip 6)).
  split; [vm_compute; reflexivity|]. split; [reflexivity|].
  split; [vm_compute; reflexivity|].
  split; intros Heq;
    apply (f_equal (fun x => PrimFloat.ltb x PrimFloat.one)) in Heq;
    vm_compute in Heq; discriminate Heq.
Qed.

Lemma frequency_map_counts_witness :
  float_frequency_map ["a"; "a"; "b"]
  = [("a", PrimFloat.div 2 3); ("b", PrimFloat.div 1 3)] /\
  (Qsum (odict_values (exact_frequency_map ["a"; "a"; "b"])) == 1)%Q.
Proof.
  destruct (frequency_map_counts ["a"; "a"; "b"] ltac:(discriminate))
    as (_ & _ & _ & _ & Hsum & Hex).
  split; [|exact Hsum]. apply (Hex "a" "b"); [discriminate | reflexivity].
Defined.


(** The end-to-end scenario: figures for [n_estimators] and
    [max_features], none for the degenerate [max_depth] and the empty
    [subsample]. *)
Example main_end_to_end :
  exists figs,
    main example_fs example_library example_collaborators example_arguments = Ok figs /\
    figs.*1 = ["n_estimators"; "max_features"] /\
    (figs ≫= fun nf => match nf.2 with
                       | NumericFigure cmds => saved_files cmds
                       | CategoricalFigure cmds => saved_files cmds
                       end)
    = ["pdf/adaboost/bestN_10/n_estimators.png";
       "pdf/adaboost/bestN_10/max_features.png"].
Proof.
  destruct (main example_fs example_library example_collaborators example_arguments)
    as [figs|e] eqn:Hmain; vm_compute in Hmain; [|discriminate Hmain].
  exists figs. split; [reflexivity|]. injection Hmain as <-. split; reflexivity.
Qed.

(** * Further properties *)

(** ** The parser: keys, pieces and errors *)

(** The pieces of an attribute name joined with the separator give the
    name back, and the canonical name of a canonical name is itself. *)
Theorem canonical_name_round_trip (attribute_name : string) :
  join "__" (split attribute_name "__") = attribute_name /\
  split attribute_name "__" <> [] /\
  canonical_name (canonical_name attribute_name) = canonical_name attribute_name.
Proof.
  split; [apply join_split; discriminate|].
  split; [apply split_from_nonempty|].
  apply canonical_name_absent, canonical_name_clean.
Qed.

Section ParserFurther.
Context {V : Type}.
Implicit Types (values m : gmap string (list V)) (rows : list (list V)).
Implicit Types (af : arff_file V) (fs : filesystem V).

Lemma defaultdict_extend_is_Some values k l k' :
  is_Some (defaultdict_extend values k l !! k') <-> k = k' \/ is_Some (values !! k').
Proof.
  unfold defaultdict_extend, defaultdict_getitem.
  destruct (decide (k = k')) as [->|Hne].
  - destruct (values !! k'); rewrite lookup_insert_eq; split; eauto.
  - destruct (values !! k); rewrite !lookup_insert_ne by done; split; eauto.
    all: intros [?|?]; [congruence|done].
Qed.

Lemma scan_attributes_keys rows attrs k : forall idx values m,
  scan_attributes rows idx attrs values = Ok m ->
  (is_Some (m !! k) <->
   is_Some (values !! k) \/
   exists aname ty, (aname, ty) ∈ attrs /\
     startswith aname "parameter_" = true /\ canonical_name aname = k).
Proof.
  induction attrs as [|[aname ty] attrs IH]; intros idx values m Hm.
  - injection Hm as <-. split; [by left|]. intros [H|(a & t & Hin & _)]; [done|].
    by apply elem_of_nil in Hin.
  - cbn [scan_attributes fst] in Hm.
    destruct (startswith aname "parameter_") eqn:Hp.
    + apply bind_Ok in Hm as (col & _ & Hm). rewrite (IH _ _ _ Hm).
      rewrite defaultdict_extend_is_Some. split.
      * intros [[Hc|Hv]|(a & t & Hin & Ha & Hc)].
        -- right. exists aname, ty. split; [apply list_elem_of_here|done].
        -- by left.
        -- right. exists a, t. split; [by apply list_elem_of_further|done].
      * intros [Hv|(a & t & Hin & Ha & Hc)]; [left; by right|].
        apply elem_of_cons in Hin as [[= -> ->]|Hin]; [left; by left|].
        right. by exists a, t.
    + rewrite (IH _ _ _ Hm). split.
      * intros [Hv|(a & t & Hin & Ha & Hc)]; [by left|].
        right. exists a, t. split; [by apply list_elem_of_further|done].
      * intros [Hv|(a & t & Hin & Ha & Hc)]; [by left|].
        apply elem_of_cons in Hin as [[= -> ->]|Hin]; [congruence|].
        right. by exists a, t.
Qed.

Lemma scan_files_keys fs files k : forall afs values m,
  for_each (arff_load fs) files = Ok afs ->
  scan_files fs files values = Ok m ->
  (is_Some (m !! k) <-> is_Some (values !! k) \/ Exists (has_column k) afs).
Proof.
  induction files as [|file files IH]; intros afs values m Hload Hm.
  - injection Hload as <-. injection Hm as <-. rewrite Exists_nil. tauto.
  - cbn [for_each scan_files] in *.
    destruct (arff_load fs file) as [af|]; [|discriminate]. cbn [bind] in *.
    destruct (for_each (arff_load fs) files) as [afs'|]; [|discriminate].
    injection Hload as <-. apply bind_Ok in Hm as (m1 & Hm1 & Hm).
    rewrite (IH afs' m1 m eq_refl Hm), (scan_attributes_keys _ _ k _ _ _ Hm1).
    rewrite Exists_cons. unfold has_column at 2. tauto.
Qed.

(** The keys of the mapping are the canonical names of the parameter
    columns: an attribute that does not begin with [parameter_] gives no
    key, and a parameter column gives its key even when the table has no
    row. *)
Theorem obtain_sampled_parameters_keys fs directory afs :
  scanned fs directory = Ok afs ->
  Forall rectangular afs ->
  exists m, obtain_sampled_parameters fs directory = Ok m /\
    forall k, is_Some (m !! k) <-> Exists (has_column k) afs.
Proof.
  intros Hload Hrect.
  destruct (obtain_sampled_parameters_cells fs directory afs Hload Hrect)
    as (m & Hm & _).
  exists m. split; [exact Hm|]. intros k.
  rewrite (scan_files_keys fs _ k afs ∅ m Hload Hm), lookup_empty.
  split; [intros [[? ?]|?]; [discriminate|done] | by right].
Qed.

Lemma scan_files_app fs before rest values :
  scan_files fs (before ++ rest) values
  = let* m := scan_files fs before values in scan_files fs rest m.
Proof.
  revert values. induction before as [|file before IH]; intros values; [reflexivity|].
  cbn [app scan_files]. destruct (arff_load fs file) as [af|]; [|reflexivity].
  cbn [bind]. destruct (scan_attributes (data af) 0 (attributes af) values);
    [apply IH | reflexivity].
Qed.

(** The first file that does not load ends the scan with its exception,
    whatever the files after it hold. *)
Theorem obtain_sampled_parameters_load_error fs directory before file after afs e :
  fs_glob fs (directory +:+ "/*/*.arff") = before ++ file :: after ->
  for_each (arff_load fs) before = Ok afs ->
  Forall rectangular afs ->
  arff_load fs file = Raise e ->
  obtain_sampled_parameters fs directory = Raise e.
Proof.
  intros Hglob Hload Hrect Hfile. unfold obtain_sampled_parameters.
  rewrite Hglob, scan_files_app.
  destruct (scan_files_cells fs before afs ∅ Hload Hrect) as (m & -> & _).
  cbn [bind scan_files]. by rewrite Hfile.
Qed.

End ParserFurther.

(** ** The degeneracy test *)

(** The test never raises, and it holds exactly when every element
    compares equal to the first under [==]: a prior with an element that
    differs from the first is never skipped, and a prior of one element
    is skipped exactly when the element equals itself. *)
Theorem degenerate_iff {V : Type} `{PyEq V} (priors : list V) :
  (exists b, degenerate priors = Ok b /\
     (b = true <->
      forall first x, priors !! 0 = Some first -> x ∈ priors -> py_eq x first = true)) /\
  (forall first x, priors !! 0 = Some first -> x ∈ priors -> py_eq x first = false ->
     degenerate priors = Ok false) /\
  (forall x : V, degenerate [x] = Ok (py_eq x x)).
Proof.
  split; [|split].
  - destruct priors as [|first rest].
    + exists true. split; [reflexivity|]. split; [|done]. by intros _ first x Hf.
    + eexists. split; [apply degenerate_forallb|].
      rewrite forallb_forall. split.
      * intros Hall f x [= <-] Hx. by apply Hall, list_elem_of_In.
      * intros Heq x Hx. apply Heq; [reflexivity|]. by apply list_elem_of_In.
  - intros first x Hfirst Hx Hne. destruct priors as [|f rest]; [discriminate|].
    injection Hfirst as ->. rewrite degenerate_forallb. f_equal.
    apply not_true_iff_false. rewrite forallb_forall. intros Hall.
    apply list_elem_of_In, Hall in Hx. congruence.
  - intros x. rewrite degenerate_forallb. cbn [forallb]. by rewrite andb_true_r.
Qed.

(** ** The frequencies of the categorical plotter *)

Lemma odict_get_tabulate_absent {K A : Type} `{EqDecision K} (g : K -> A)
    (L : list K) (k : K) :
  k ∉ L -> odict_get (tabulate g L) k = None.
Proof.
  induction L as [|k' L IH]; intros Hk; [reflexivity|].
  apply not_elem_of_cons in Hk as [Hne Hk]. simpl.
  rewrite decide_False by congruence. by apply IH.
Qed.

Lemma occurrences_Permutation {K : Type} `{EqDecision K} (k : K) (X Y : list K) :
  X ≡ₚ Y -> occurrences k X = occurrences k Y.
Proof. intros HXY. unfold occurrences. by rewrite HXY. Qed.

(** The frequency of a value does not depend on where its occurrences
    stand in the sequence, in binary64 arithmetic too: reordering the
    input can only change the order of the keys. *)
Theorem float_frequency_map_Permutation {K : Type} `{EqDecision K} (X Y : list K) :
  X ≡ₚ Y ->
  forall k, odict_get (float_frequency_map X) k = odict_get (float_frequency_map Y) k.
Proof.
  intros HXY k. unfold float_frequency_map. rewrite !frequency_map_tabulate.
  destruct (decide (k ∈ X)) as [Hin|Hin].
  - rewrite !odict_get_tabulate
      by (apply first_seen_elem; first [exact Hin | by rewrite <- HXY]).
    by rewrite (occurrences_Permutation k X Y HXY), (Permutation_length HXY).
  - rewrite !odict_get_tabulate_absent
      by (rewrite first_seen_elem; first [exact Hin | by rewrite <- HXY]).
    reflexivity.
Qed.

Lemma float_frequency_map_Permutation_witness :
  odict_get (float_frequency_map ["a"; "b"; "a"]) "a"
  = odict_get (float_frequency_map ["a"; "a"; "b"]) "a".
Proof.
  apply (float_frequency_map_Permutation ["a"; "b"; "a"] ["a"; "a"; "b"]).
  apply perm_skip, perm_swap.
Defined.

Lemma obtain_sampled_parameters_keys_witness :
  exists m,
    obtain_sampled_parameters example_fs "results/adaboost/bestN_10/random_search" = Ok m /\
    forall k, is_Some (m !! k) <-> Exists (has_column k) [table_a; table_b].
Proof.
  exact (obtain_sampled_parameters_keys example_fs
           "results/adaboost/bestN_10/random_search" [table_a; table_b]
           scanned_example rectangular_example).
Defined.

Lemma obtain_sampled_parameters_load_error_witness :
  obtain_sampled_parameters faulty_fs "unreadable" = Raise (OSError "unreadable.arff").
Proof.
  apply (obtain_sampled_parameters_load_error faulty_fs "unreadable"
           ["a.arff"] "unreadable.arff" ["b.arff"] [table_a]).
  - reflexivity.
  - reflexivity.
  - repeat constructor.
  - reflexivity.
Defined.

(** ** The figure of the numeric plotter *)

Section FigureTheorems.
Context {V : Type}.
Variable lib : numeric_library V.
Implicit Types (h : numerical) (data : list (string * samples V)).


(** What else a completed call does: the two subplots are created with a
    shared x axis and [set_xlim] is called once, on the top one, with the
    ends of the range; the data under the key [gaussian_kde], when the
    mapping has it, are handed to [plot] as they are, the one unlabelled
    point cloud, drawn with [+k]; without that key there is none. *)
Theorem plot_numeric_decorations h data output_dir parameter_name cmds :
  plot_numeric lib h data output_dir parameter_name = Ok cmds ->
  subplot_grids cmds = [(2, true)] /\
  xlims cmds = [(0, range_min lib h, range_max lib h)] /\
  point_clouds cmds
  = match odict_get data "gaussian_kde" with
    | Some values => [(values, "+k")]
    | None => []
    end.
Proof.
  intros Hok.
  by destruct (plot_numeric_frame lib _ _ _ _ _ Hok) as (_ & _ & Hsub & Hx & Hpc).
Qed.

(** When [np.power(x, 1.0)] is [x] as a [float64] for the two bounds, as
    it is for a power of exponent one, the range is the declared one as
    binary64 has it: the safeguard on the upper end does not apply, not
    even for NaN, the last point of the grid is the upper bound and the
    limits of the x axis of a completed call are the two bounds. *)
Theorem plot_numeric_declared_range h :
  np_power lib (lower h) 1 = np_float64 (lower h) ->
  np_power lib (upper h) 1 = np_float64 (upper h) ->
  range_min lib h = np_float64 (lower h) /\
  range_max lib h = np_float64 (upper h) /\
  X_values_plot lib h !! 999 = Some (np_float64 (upper h)) /\
  forall data output_dir parameter_name cmds,
    plot_numeric lib h data output_dir parameter_name = Ok cmds ->
    xlims cmds = [(0, np_float64 (lower h), np_float64 (upper h))].
Proof.
  intros Hlo Hup. pose proof (range_max_exact lib h Hup) as Hmax.
  assert (range_min lib h = np_float64 (lower h)) as Hmin by exact Hlo.
  split; [exact Hmin|]. split; [exact Hmax|]. split.
  - unfold X_values_plot. rewrite Hmax. apply (np_linspace_last _ _ 1000). lia.
  - intros data output_dir parameter_name cmds Hok.
    destruct (plot_numeric_frame lib _ _ _ _ _ Hok) as (_ & _ & _ & Hx & _).
    by rewrite Hx, Hmin, Hmax.
Qed.
End FigureTheorems.

(** ** The data of a numeric parameter *)

Lemma filter_iff_elem {A : Type} (P1 P2 : A -> Prop)
    `{!forall x, Decision (P1 x), !forall x, Decision (P2 x)} (l : list A) :
  (forall x, x ∈ l -> P1 x <-> P2 x) -> filter P1 l = filter P2 l.
Proof.
  induction l as [|x l IH]; intros HP; [reflexivity|].
  rewrite !filter_cons.
  rewrite IH by (intros y Hy; apply HP; by apply list_elem_of_further).
  pose proof (HP x (list_elem_of_here x l)) as Hx.
  destruct (decide (P1 x)), (decide (P2 x)); tauto.
Qed.

Section DataProperties.
Context {V : Type} `{EqDecision V} `{PyEq V}.
Variables (lib : numeric_library V) (ext : collaborators V).
Implicit Types (priors : list V) (hyperparameters : gmap string hyperparameter).
Implicit Types (st : list (string * gmap string (list V))).
Implicit Types (data : list (string * samples V)).

Lemma odict_set_present_keys {A : Type} (d : list (string * A)) k v :
  k ∈ d.*1 -> (odict_set d k v).*1 = d.*1.
Proof.
  induction d as [|[k' v'] d IH]; intros Hk; [by apply elem_of_nil in Hk|].
  cbn [odict_set]. destruct (decide (k' = k)) as [->|Hne]; [reflexivity|].
  cbn [fmap list_fmap fst]. f_equal. apply IH.
  apply elem_of_cons in Hk as [Hk|Hk]; [by subst | exact Hk].
Qed.

(** [strategy_data] is the pure read, and leaves every mapping read once
    at the parameter's name. *)
Lemma strategy_data_read param_name st : forall data,
  strategy_data lib param_name st data
  = let* data' := read_strategies lib param_name st data in
    Ok (data', touch param_name st).
Proof.
  induction st as [|[strategy sampled] rest IH]; intros data; [reflexivity|].
  cbn [strategy_data read_strategies touch fmap list_fmap fst snd].
  pose proof (defaultdict_getitem_fst sampled param_name) as Hfst.
  destruct (defaultdict_getitem sampled param_name) as [values sampled'].
  cbn [fst snd] in *. rewrite <- Hfst.
  destruct (np_array_float64 lib values) as [arr|]; [|reflexivity]. cbn [bind].
  rewrite IH. by destruct (read_strategies lib param_name rest _).
Qed.

Lemma read_strategies_keys param_name st : forall data data',
  read_strategies lib param_name st data = Ok data' ->
  NoDup st.*1 ->
  data'.*1 = data.*1 ++ filter (fun s => s ∉ data.*1) st.*1.
Proof.
  induction st as [|[strategy sampled] rest IH]; intros data data' Hok Hnd.
  - injection Hok as <-. by rewrite app_nil_r.
  - cbn [read_strategies] in Hok. apply bind_Ok in Hok as (arr & _ & Hok).
    cbn [fmap list_fmap fst] in *. apply NoDup_cons in Hnd as [Hfresh Hnd].
    rewrite (IH _ _ Hok Hnd). destruct (decide (strategy ∈ data.*1)) as [Hin|Hin].
    + rewrite odict_set_present_keys by done.
      by rewrite filter_cons_False by (intros Hn; by apply Hn).
    + rewrite odict_set_fresh, fmap_app by done. cbn [fmap list_fmap fst].
      rewrite filter_cons_True by done. rewrite <- app_assoc. do 2 f_equal.
      cbn [app]. f_equal. apply filter_iff_elem.
      intros s Hs. rewrite not_elem_of_app, list_elem_of_singleton.
      split; [tauto|]. intros Hd. split; [exact Hd|]. by intros ->.
Qed.

End DataProperties.

Lemma filter_all {A : Type} (P : A -> Prop) `{!forall x, Decision (P x)} (l : list A) :
  Forall P l -> filter P l = l.
Proof.
  induction 1 as [|x l Hx _ IH]; [reflexivity|].
  by rewrite filter_cons_True, IH.
Qed.

Section DataTheorems.
Context {V : Type} `{EqDecision V} `{PyEq V}.
Variables (lib : numeric_library V) (ext : collaborators V).
Implicit Types (priors : list V) (hyperparameters : gmap string hyperparameter).
Implicit Types (st : list (string * gmap string (list V))).
Implicit Types (data : list (string * samples V)).



(** A strategy directory called [gaussian_kde] takes the place of the
    prior: the mapping handed to [plot_numeric] has the samples of that
    strategy under the key, as a float array, and one entry per strategy,
    so the prior itself is not drawn. *)
Theorem dispatch_strategy_named_gaussian_kde hyperparameters out_dir st param_name
    priors h sampled :
  degenerate priors = Ok false ->
  hyperparameters !! param_name = Some (NumericalHyperparameter h) ->
  NoDup st.*1 ->
  ("gaussian_kde", sampled) ∈ st ->
  Forall (fun sd => exists arr,
            np_array_float64 lib (defaultdict_getitem sd.2 param_name).1 = Ok arr) st ->
  exists data st' arr,
    dispatch lib hyperparameters out_dir st param_name priors
    = Ok (Some (CallNumeric h data (out_dir +:+ "/") param_name), st') /\
    np_array_float64 lib (defaultdict_getitem sampled param_name).1 = Ok arr /\
    odict_get data "gaussian_kde" = Some (Float64Array arr) /\
    data.*1 = "gaussian_kde" :: filter (fun s => s ≠ "gaussian_kde") st.*1 /\
    length data = length st.
Proof.
  intros Hd Hh Hnd Hin Hconv.
  destruct (strategy_data_arrays lib param_name st [("gaussian_kde", RawList priors)]
              Hconv Hnd) as (data & st' & Hdata & Hall).
  destruct (Hall _ _ Hin) as (arr & Harr & Hget).
  exists data, st', arr. unfold dispatch. rewrite Hd. cbn [bind]. rewrite Hh, Hdata.
  split; [reflexivity|]. split; [exact Harr|]. split; [exact Hget|].
  rewrite strategy_data_read in Hdata.
  apply bind_Ok in Hdata as (data0 & Hread & Heq). injection Heq as -> _.
  assert (data.*1 = "gaussian_kde" :: filter (fun s => s ≠ "gaussian_kde") st.*1)
    as Hkeys.
  { rewrite (read_strategies_keys lib _ _ _ _ Hread Hnd). cbn [fmap list_fmap fst app].
    f_equal. apply filter_iff_elem. intros s _. by rewrite list_elem_of_singleton. }
  split; [exact Hkeys|].
  rewrite <- (length_fmap fst data), Hkeys, <- (length_fmap fst st). cbn [length].
  assert ("gaussian_kde" ∈ st.*1) as Hk.
  { apply list_elem_of_fmap. by exists ("gaussian_kde", sampled). }
  clear -Hnd Hk. induction st.*1 as [|s l IH]; [by apply elem_of_nil in Hk|].
  apply NoDup_cons in Hnd as [Hs Hnd]. cbn [length].
  destruct (decide (s = "gaussian_kde")) as [->|Hne].
  - rewrite filter_cons_False by (intros Hn; by apply Hn).
    rewrite filter_all; [reflexivity|]. apply Forall_forall. intros x Hx ->. done.
  - rewrite filter_cons_True by done. cbn [length]. f_equal. apply IH; [exact Hnd|].
    apply elem_of_cons in Hk as [Hk|Hk]; [congruence|exact Hk].
Qed.
End DataTheorems.

(** ** The loop over the strategies and the loop over the priors *)

Section LoopProperties.
Context {V : Type} `{EqDecision V} `{PyEq V}.
Variables (fs : filesystem V) (lib : numeric_library V) (ext : collaborators V).
Implicit Types (priors : list V) (hyperparameters : gmap string hyperparameter).
Implicit Types (st : list (string * gmap string (list V))).
Implicit Types (data : list (string * samples V)).

Lemma obtain_results_fresh dir strategies : forall acc,
  NoDup strategies ->
  (forall s, s ∈ strategies -> s ∉ acc.*1) ->
  Forall (fun s => exists m, obtain_sampled_parameters fs (os_path_join dir s) = Ok m)
    strategies ->
  exists new,
    obtain_results fs dir strategies acc = Ok (acc ++ new) /\
    Forall2 (fun s entry => entry.1 = s /\
               obtain_sampled_parameters fs (os_path_join dir s) = Ok entry.2)
      strategies new.
Proof.
  induction strategies as [|s strategies IH]; intros acc Hnd Hfresh Hok.
  - exists []. by rewrite app_nil_r.
  - apply NoDup_cons in Hnd as [Hs Hnd]. apply Forall_cons in Hok as [[m Hm] Hok].
    cbn [obtain_results]. rewrite Hm. cbn [bind].
    rewrite odict_set_fresh by apply Hfresh, list_elem_of_here.
    destruct (IH (acc ++ [(s, m)]) Hnd) as (new & Hnew & Hall); [|exact Hok|].
    { intros s' Hs'. rewrite fmap_app, not_elem_of_app. split.
      - by apply Hfresh, list_elem_of_further.
      - cbn. rewrite list_elem_of_singleton. by intros ->. }
    exists ((s, m) :: new). rewrite Hnew, <- app_assoc. split; [reflexivity|].
    by constructor.
Qed.

(** When the listing of the result directory has no name twice and every
    strategy directory parses, [obtained_results] has one entry per
    strategy, in the order of the listing, holding what
    [obtain_sampled_parameters] returns for the directory of the
    strategy; its keys are distinct. *)
Theorem obtain_results_entries dir strategies :
  NoDup strategies ->
  Forall (fun s => exists m, obtain_sampled_parameters fs (os_path_join dir s) = Ok m)
    strategies ->
  exists st,
    obtain_results fs dir strategies [] = Ok st /\
    st.*1 = strategies /\ NoDup st.*1 /\
    Forall2 (fun s entry => obtain_sampled_parameters fs (os_path_join dir s) = Ok entry.2)
      strategies st.
Proof.
  intros Hnd Hok.
  destruct (obtain_results_fresh dir strategies [] Hnd) as (st & Hst & Hall);
    [intros s _; apply not_elem_of_nil | exact Hok |].
  exists st. split; [exact Hst|].
  assert (st.*1 = strategies) as Hkeys.
  { clear -Hall. induction Hall as [|s e l k [He _] _ IH]; [reflexivity|].
    cbn. by rewrite He, IH. }
  split; [exact Hkeys|]. split; [by rewrite Hkeys|].
  eapply Forall2_impl; [exact Hall|]. by intros s e [_ ?].
Qed.

(** The first strategy directory that does not parse ends the script's
    loop over the strategies with its exception. *)
Theorem obtain_results_error dir before s after e :
  Forall (fun s => exists m, obtain_sampled_parameters fs (os_path_join dir s) = Ok m)
    before ->
  obtain_sampled_parameters fs (os_path_join dir s) = Raise e ->
  obtain_results fs dir (before ++ s :: after) [] = Raise e.
Proof.
  intros Hok Hs. generalize (@nil (string * gmap string (list V))).
  induction Hok as [|x l [m Hm] _ IH]; intros acc; cbn [app obtain_results].
  - by rewrite Hs.
  - rewrite Hm. cbn [bind]. apply IH.
Qed.
End LoopProperties.

Section ReadProperties.
Context {V : Type} `{EqDecision V} `{PyEq V}.
Variables (lib : numeric_library V) (ext : collaborators V).
Implicit Types (priors : list V) (hyperparameters : gmap string hyperparameter).
Implicit Types (st : list (string * gmap string (list V))).
Implicit Types (data : list (string * samples V)).

Lemma same_reads_refl st : same_reads st st.
Proof. unfold same_reads. induction st; by constructor. Qed.

Lemma same_reads_sym st st' : same_reads st st' -> same_reads st' st.
Proof.
  unfold same_reads. induction 1 as [|a b l k [Hn Hr] _ IH]; constructor; [|exact IH].
  split; [done|]. intros key. by rewrite Hr.
Qed.

Lemma same_reads_trans st1 st2 st3 :
  same_reads st1 st2 -> same_reads st2 st3 -> same_reads st1 st3.
Proof.
  unfold same_reads. intros H12. revert st3.
  induction H12 as [|a b l k [Hn Hr] _ IH]; intros st3 H23.
  - by apply Forall2_nil_inv_l in H23 as ->.
  - apply Forall2_cons_inv_l in H23 as (c & k' & [Hn' Hr'] & H23 & ->).
    constructor; [|by apply IH]. split; [congruence|].
    intros key. by rewrite Hr, Hr'.
Qed.

(** A read stores at most an empty list under a key that was missing, so
    every later read finds what it would have found. *)
Lemma same_reads_touch param_name st : same_reads st (touch param_name st).
Proof.
  unfold same_reads, touch. induction st as [|[s m] st IH]; constructor; [|exact IH].
  split; [reflexivity|]. intros key. cbn [fst snd].
  rewrite !defaultdict_getitem_fst. unfold defaultdict_getitem.
  destruct (m !! param_name) eqn:Hp; [reflexivity|]. cbn [snd].
  destruct (decide (param_name = key)) as [<-|Hne].
  - by rewrite lookup_insert_eq, Hp.
  - by rewrite lookup_insert_ne.
Qed.

Lemma read_strategies_same_reads param_name st st' :
  same_reads st st' -> forall data,
  read_strategies lib param_name st data = read_strategies lib param_name st' data.
Proof.
  unfold same_reads. induction 1 as [|[s m] [s' m'] l k [Hn Hr] _ IH]; intros data;
    [reflexivity|].
  cbn [fst snd] in *. subst s'. cbn [read_strategies].
  rewrite <- !defaultdict_getitem_fst, Hr.
  destruct (np_array_float64 lib _); [apply IH|reflexivity].
Qed.

Lemma touch_same_reads param_name st st' :
  same_reads st st' -> same_reads (touch param_name st) (touch param_name st').
Proof.
  intros Hst. eapply same_reads_trans; [apply same_reads_sym, same_reads_touch|].
  eapply same_reads_trans; [exact Hst|apply same_reads_touch].
Qed.

(** What a turn of the loop does depends on the mappings only through
    what they read. *)
Lemma dispatch_same_reads hyperparameters out_dir st st' param_name priors :
  same_reads st st' ->
  match dispatch lib hyperparameters out_dir st param_name priors,
        dispatch lib hyperparameters out_dir st' param_name priors with
  | Ok (call, st1), Ok (call', st1') =>
      call = call' /\ same_reads st st1 /\ same_reads st1 st1'
  | Raise e, Raise e' => e = e'
  | _, _ => False
  end.
Proof.
  intros Hst. unfold dispatch.
  destruct (degenerate priors) as [[|]|]; cbn [bind]; [by auto using same_reads_refl| |done].
  destruct (hyperparameters !! param_name) as [[h| |]|];
    [|by auto using same_reads_refl..|done].
  rewrite !strategy_data_read, (read_strategies_same_reads _ _ _ Hst).
  destruct (read_strategies lib param_name st' _); cbn [bind]; [|done].
  split; [reflexivity|]. split; [apply same_reads_touch | by apply touch_same_reads].
Qed.

Lemma plot_parameters_same_reads hyperparameters out_dir param_priors :
  forall st st', same_reads st st' ->
  plot_parameters lib ext hyperparameters out_dir st param_priors
  = plot_parameters lib ext hyperparameters out_dir st' param_priors.
Proof.
  induction param_priors as [|[n p] rest IH]; intros st st' Hst; [reflexivity|].
  cbn [plot_parameters].
  pose proof (dispatch_same_reads hyperparameters out_dir st st' n p Hst) as Hd.
  destruct (dispatch lib hyperparameters out_dir st n p) as [[call st1]|e],
           (dispatch lib hyperparameters out_dir st' n p) as [[call' st1']|e'];
    try done; [|by subst].
  destruct Hd as (<- & _ & H1). cbn [bind].
  by rewrite (IH st1 st1' H1).
Qed.

Lemma plot_parameters_app hyperparameters out_dir l1 l2 : forall st,
  plot_parameters lib ext hyperparameters out_dir st (l1 ++ l2)
  = let* figs1 := plot_parameters lib ext hyperparameters out_dir st l1 in
    let* figs2 := plot_parameters lib ext hyperparameters out_dir st l2 in
    Ok (figs1 ++ figs2).
Proof.
  induction l1 as [|[n p] l1 IH]; intros st.
  - cbn [app plot_parameters bind].
    by destruct (plot_parameters lib ext hyperparameters out_dir st l2).
  - cbn [app plot_parameters].
    pose proof (dispatch_same_reads hyperparameters out_dir st st n p
                  (same_reads_refl st)) as Hd.
    destruct (dispatch lib hyperparameters out_dir st n p) as [[call st1]|e];
      [|reflexivity].
    destruct Hd as (_ & Hst1 & _). cbn [bind].
    destruct (match call with
              | Some c => let* fig := run_call lib ext c in Ok [(n, fig)]
              | None => Ok []
              end) as [drawn|]; [|reflexivity].
    cbn [bind]. rewrite IH.
    rewrite <- (plot_parameters_same_reads hyperparameters out_dir l2 st st1 Hst1).
    destruct (plot_parameters lib ext hyperparameters out_dir st1 l1); [|reflexivity].
    cbn [bind].
    destruct (plot_parameters lib ext hyperparameters out_dir st l2); [|reflexivity].
    cbn [bind]. by rewrite app_assoc.
Qed.
End ReadProperties.

Section LoopTheorems.
Context {V : Type} `{EqDecision V} `{PyEq V}.
Variables (lib : numeric_library V) (ext : collaborators V).
Implicit Types (priors : list V) (hyperparameters : gmap string hyperparameter).
Implicit Types (st : list (string * gmap string (list V))).

(** Reading a parameter that a strategy has no samples for stores an
    empty list in the mapping of the strategy, and this changes nothing
    for a later turn of the loop: on mappings that have been read at any
    name the turn hands the same call to the plotters, or raises the same
    exception, as on the mappings as they were parsed, and the mappings
    it leaves read alike. *)
Theorem dispatch_reads_independent hyperparameters out_dir st read_name param_name
    priors :
  same_reads st (touch read_name st) /\
  match dispatch lib hyperparameters out_dir st param_name priors,
        dispatch lib hyperparameters out_dir (touch read_name st) param_name priors with
  | Ok (call, st1), Ok (call', st1') => call = call' /\ same_reads st1 st1'
  | Raise e, Raise e' => e = e'
  | _, _ => False
  end.
Proof.
  split; [apply same_reads_touch|].
  pose proof (dispatch_same_reads lib hyperparameters out_dir st (touch read_name st)
                param_name priors (same_reads_touch read_name st)) as Hd.
  destruct (dispatch lib hyperparameters out_dir st param_name priors) as [[c st1]|e],
    (dispatch lib hyperparameters out_dir (touch read_name st) param_name priors)
      as [[c' st1']|e']; try done.
  by destruct Hd as (-> & _ & Hst).
Qed.

(** A hyperparameter that is neither numerical nor categorical is passed
    over without a call and without an exception, whatever its priors:
    the loop goes on as if the entry were not among the priors. *)
Theorem constant_hyperparameter_skipped hyperparameters out_dir param_name priors
    cname cvalue :
  hyperparameters !! param_name = Some (Constant cname cvalue) ->
  forall st before after,
    plot_parameters lib ext hyperparameters out_dir st
      (before ++ (param_name, priors) :: after)
    = plot_parameters lib ext hyperparameters out_dir st (before ++ after).
Proof.
  intros Hh st before after. rewrite !plot_parameters_app. f_equal.
  cbn [plot_parameters]. unfold dispatch.
  destruct (degenerate_total priors) as [[|] ->]; cbn [bind]; rewrite ?Hh; cbn [bind].
  all: by destruct (plot_parameters lib ext hyperparameters out_dir st after).
Qed.

(** A prior that is not degenerate and whose name is not a key of the
    hyperparameters ends the loop with [KeyError] for that name, once the
    parameters before it are drawn. *)
Theorem unknown_parameter_raises hyperparameters out_dir param_name priors st
    before after figs :
  hyperparameters !! param_name = None ->
  degenerate priors = Ok false ->
  plot_parameters lib ext hyperparameters out_dir st before = Ok figs ->
  plot_parameters lib ext hyperparameters out_dir st
    (before ++ (param_name, priors) :: after)
  = Raise (KeyError param_name).
Proof.
  intros Hh Hd Hbefore. rewrite plot_parameters_app, Hbefore. cbn [bind plot_parameters].
  unfold dispatch. rewrite Hd. cbn [bind]. by rewrite Hh.
Qed.

Lemma dispatch_call hyperparameters out_dir st param_name priors c st1 :
  dispatch lib hyperparameters out_dir st param_name priors = Ok (Some c, st1) ->
  (exists h data, c = CallNumeric h data (out_dir +:+ "/") param_name) \/
  c = CallCategorical priors (out_dir +:+ "/") param_name.
Proof.
  unfold dispatch. intros Hok. apply bind_Ok in Hok as ([|] & _ & Hok); [discriminate|].
  destruct (hyperparameters !! param_name) as [[h| |]|]; try discriminate.
  - apply bind_Ok in Hok as ([data st'] & _ & Hok). injection Hok as <- _.
    left. by exists h, data.
  - injection Hok as <- _. by right.
Qed.

Lemma plot_parameters_saved hyperparameters out_dir param_priors : forall st figs,
  plot_parameters lib ext hyperparameters out_dir st param_priors = Ok figs ->
  Forall (fun nf => figure_files nf.2 = [(out_dir +:+ "/") +:+ nf.1 +:+ ".png"]) figs.
Proof.
  induction param_priors as [|[n p] rest IH]; intros st figs Hok.
  - injection Hok as <-. constructor.
  - cbn [plot_parameters] in Hok.
    apply bind_Ok in Hok as ([call st1] & Hcall & Hok).
    apply bind_Ok in Hok as (drawn & Hdrawn & Hok).
    apply bind_Ok in Hok as (figs' & Hfigs & Hok). injection Hok as <-.
    apply Forall_app. split; [|by eapply IH].
    destruct call as [c|]; [|injection Hdrawn as <-; constructor].
    apply bind_Ok in Hdrawn as (fig & Hfig & Hdrawn). injection Hdrawn as <-.
    constructor; [|constructor]. cbn [fst snd].
    destruct (dispatch_call _ _ _ _ _ _ _ Hcall) as [(h & data & ->)| ->];
      cbn [run_call] in Hfig.
    + apply bind_Ok in Hfig as (cmds & Hcmds & Hfig). injection Hfig as <-.
      destruct (plot_numeric_completes _ _ _ _ _ _ Hcmds) as [Hest Hlen].
      destruct (plot_numeric_drawn lib h data (out_dir +:+ "/") n Hest Hlen)
        as (cmds' & Hcmds' & _ & Hsaved & _).
      rewrite Hcmds in Hcmds'. injection Hcmds' as <-. exact Hsaved.
    + apply bind_Ok in Hfig as (cmds & Hcmds & Hfig). injection Hfig as <-.
      unfold plot_categorical in Hcmds.
      apply bind_Ok in Hcmds as (draws & _ & Hcmds). injection Hcmds as <-.
      reflexivity.
Qed.
End LoopTheorems.

Section MainFiles.
Context {V : Type} `{EqDecision V} `{PyEq V}.
Variables (fs : filesystem V) (lib : numeric_library V) (ext : collaborators V).

(** When the script completes, every figure is saved once, to the output
    directory of the command line, the classifier, the suffix of the fixed
    parameters with [bestN], and the name of its parameter followed by
    [.png], each joined by a slash; and the figures are named after priors
    the prior utility returned, in their order. *)
Theorem main_figure_files (args : arguments) figs :
  main fs lib ext args = Ok figs ->
  Forall (fun nf =>
            figure_files nf.2
            = [(output_directory args +:+ "/" +:+ classifier args +:+ "/"
                +:+ fixed_parameters_to_suffix ext (Some (important_parameters args))
                +:+ "/") +:+ nf.1 +:+ ".png"]) figs /\
  exists hyperparameters param_priors,
    obtain_priors ext (priors_call ext args hyperparameters) = Ok param_priors /\
    figs.*1 `sublist_of` param_priors.*1.
Proof.
  unfold main. intros Hok.
  apply bind_Ok in Hok as (hyperparameters & _ & Hok).
  apply bind_Ok in Hok as (strategies & _ & Hok).
  apply bind_Ok in Hok as (st & _ & Hok).
  apply bind_Ok in Hok as (param_priors & Hpriors & Hok).
  split.
  - pose proof (plot_parameters_saved lib ext _ _ _ _ _ Hok) as Hfiles.
    eapply Forall_impl; [exact Hfiles|]. intros nf ->. unfold output_dir, save_folder_suffix.
    by rewrite !string_app_assoc.
  - exists hyperparameters, param_priors. split; [exact Hpriors|].
    by eapply plot_parameters_names.
Qed.
End MainFiles.

(** * The further properties at the examples *)

(** The categorical plotter on an empty sequence: the sampler refuses the
    empty support and nothing is drawn. From the loop the sequence is
    never empty, an empty prior being skipped. *)
Example plot_categorical_empty :
  run_call example_library example_collaborators (CallCategorical [] "pdf/" "criterion")
  = Raise ValueError.
Proof. reflexivity. Qed.

Lemma example_conversion (l : list Q) :
  exists arr, np_array_float64 example_library l = Ok arr.
Proof.
  unfold np_array_float64. induction l as [|x l [arr IH]]; [by exists []|].
  cbn [for_each]. rewrite IH. by eexists.
Qed.

Lemma example_convertible (param_name : string) (st : list (string * gmap string (list Q))) :
  Forall (fun sd => exists arr,
            np_array_float64 example_library
              (defaultdict_getitem sd.2 param_name).1 = Ok arr) st.
Proof. apply Forall_forall. intros sd _. apply example_conversion. Qed.


(** The empirical distribution function of the strategy of the
    end-to-end scenario. *)
Example step_function_random_search :
  exists curve dots,
    plot_strategy example_library n_estimators 1
      ("random_search", Float64Array [30; 10; 20]%float)
    = Ok [curve; dots] /\
    step_functions [curve; dots]
    = [("random_search", [10; 20; 30]%float,
        [PrimFloat.div 1 3; PrimFloat.div 2 3; 1%float])].
Proof. eexists _, _. split; reflexivity. Qed.

Lemma plot_numeric_decorations_witness :
  exists cmds,
    plot_numeric example_library n_estimators two_strategies "pdf/" "n_estimators"
    = Ok cmds /\
    subplot_grids cmds = [(2, true)] /\
    xlims cmds = [(0, 50%float, 500%float)] /\
    point_clouds cmds = [(RawList [15; 18; 22; 30]%Q, "+k")].
Proof.
  destruct (plot_numeric_two_strategies n_estimators "pdf/" "n_estimators")
    as [cmds Hcmds].
  exists cmds. split; [exact Hcmds|].
  exact (plot_numeric_decorations example_library n_estimators two_strategies
           "pdf/" "n_estimators" cmds Hcmds).
Defined.

Lemma plot_numeric_declared_range_witness :
  range_min example_library n_estimators = 50%float /\
  range_max example_library n_estimators = 500%float /\
  X_values_plot example_library n_estimators !! 999 = Some 500%float.
Proof.
  destruct (plot_numeric_declared_range example_library n_estimators eq_refl eq_refl)
    as (Hmin & Hmax & Hlast & _).
  by repeat split.
Defined.


Lemma dispatch_strategy_named_gaussian_kde_witness :
  exists data st' arr,
    dispatch example_library
      (<["n_estimators" := NumericalHyperparameter n_estimators]> ∅) "pdf"
      [("gaussian_kde", ∅)] "n_estimators" [15; 18; 22; 30]%Q
    = Ok (Some (CallNumeric n_estimators data "pdf/" "n_estimators"), st') /\
    odict_get data "gaussian_kde" = Some (Float64Array arr) /\
    length data = 1.
Proof.
  destruct (dispatch_strategy_named_gaussian_kde example_library
              (<["n_estimators" := NumericalHyperparameter n_estimators]> ∅) "pdf"
              [("gaussian_kde", ∅)] "n_estimators" [15; 18; 22; 30]%Q n_estimators ∅)
    as (data & st' & arr & Hd & _ & Hget & _ & Hlen).
  - reflexivity.
  - apply lookup_insert_eq.
  - apply NoDup_singleton.
  - apply list_elem_of_here.
  - apply example_convertible.
  - by exists data, st', arr.
Defined.

Lemma obtain_results_entries_witness :
  exists st,
    obtain_results example_fs "results/adaboost/bestN_10" ["random_search"] [] = Ok st /\
    st.*1 = ["random_search"].
Proof.
  destruct (obtain_results_entries example_fs "results/adaboost/bestN_10"
              ["random_search"]) as (st & Hst & Hkeys & _).
  - apply NoDup_singleton.
  - constructor; [|constructor].
    destruct (obtain_sampled_parameters_cells example_fs
                "results/adaboost/bestN_10/random_search" [table_a; table_b]
                scanned_example rectangular_example) as (m & Hm & _).
    exists m. exact Hm.
  - by exists st.
Defined.

Lemma obtain_results_error_witness :
  obtain_results faulty_fs "" ["elsewhere"; "unreadable"; "later"] []
  = Raise (OSError "unreadable.arff").
Proof.
  apply (obtain_results_error faulty_fs "" ["elsewhere"] "unreadable" ["later"]).
  - constructor; [|constructor]. exists ∅. reflexivity.
  - reflexivity.
Defined.

Lemma constant_hyperparameter_skipped_witness :
  plot_parameters example_library example_collaborators
    (<["random_state" := Constant "random_state" "1"]> ∅) "pdf" []
    [("random_state", [1; 2]%Q)]
  = plot_parameters example_library example_collaborators
      (<["random_state" := Constant "random_state" "1"]> ∅) "pdf" [] [].
Proof.
  apply (constant_hyperparameter_skipped example_library example_collaborators
           (<["random_state" := Constant "random_state" "1"]> ∅) "pdf" "random_state"
           [1; 2]%Q "random_state" "1" (lookup_insert_eq _ _ _) [] [] []).
Defined.

Lemma unknown_parameter_raises_witness :
  plot_parameters example_library example_collaborators ∅ "pdf" []
    [("unknown", [1; 2]%Q)]
  = Raise (KeyError "unknown").
Proof.
  apply (unknown_parameter_raises example_library example_collaborators ∅ "pdf"
           "unknown" [1; 2]%Q [] [] [] []); reflexivity.
Defined.

Lemma main_figure_files_witness :
  exists figs,
    main example_fs example_library example_collaborators example_arguments = Ok figs /\
    Forall (fun nf => figure_files nf.2
                      = ["pdf/adaboost/bestN_10/" +:+ nf.1 +:+ ".png"]) figs.
Proof.
  destruct main_end_to_end as (figs & Hmain & _).
  exists figs. split; [exact Hmain|].
  exact (proj1 (main_figure_files example_fs example_library example_collaborators
                  example_arguments figs Hmain)).
Defined.
